(** * PaisaTrack: budget allocation and spend aggregation

    A shallow embedding of the calculation core of [src/App.tsx]
    (the [Transaction] and [Budget] classes, the derived figures computed
    by the [App] component and the [handleAddTransaction] handler),
    together with the parts of the JavaScript runtime and of date-fns
    that this code calls.

    Conventions of the embedding.
    - The numbers of the program are IEEE 754 binary64 numbers.  The
      arithmetic of the budget policy, of the Chai-Index alert and of the
      totals by category is given on the binary64 numbers of the kernel
      (module [B64]), which round as the JavaScript operations do.
    - The rest of the component is given on a type [number] of [NaN],
      [+Infinity], [-Infinity] and finite values that are exact
      rationals ([Qc]), without the rounding of binary64 and without the
      sign of zero.  The three special values are kept because the
      guards of the program ([isNaN], [||], [Math.max], comparisons)
      depend on them.  What is stated on this type is about which
      transactions are selected, in which order, and about comparisons
      that rounding preserves.
    - A text is the sequence of the bytes of its UTF-8 encoding.
    - A [Date] is either invalid or holds a time value, the number of
      milliseconds since the epoch, as the language standard defines it.
    - Local time is UTC shifted by a constant offset [tza] (milliseconds),
      a parameter of every function that reads local calendar fields.
    - [Math.random] and the clock are inputs: the constructor of
      [Transaction] receives the freshly drawn identifier, and the
      component receives the instant [now] returned by [new Date()].
    - What the program calls but does not define ([parseFloat], [isNaN],
      [Math.max], the [Date] methods, [toISOString], the parsing of date
      strings, and the functions of date-fns) is modelled after the
      language standard and the library's documentation.

    The file first gives the definitions, then the properties. *)

From Stdlib Require Import ZArith QArith Qcanon List String Ascii Bool Lia.
From Stdlib Require Import Floats Qround Lqa.
Import ListNotations.

Local Open Scope Z_scope.

(* ================================================================== *)
(** * JavaScript numbers *)
(* ================================================================== *)

Inductive number : Type :=
| NaN
| Infinity (negative : bool)
| Finite (q : Qc).

Definition Qc_of_Z (z : Z) : Qc := Q2Qc (inject_Z z).

(** Numeric literals of the source. *)
Definition num (z : Z) : number := Finite (Qc_of_Z z).
Definition num_frac (n : Z) (d : positive) : number := Finite (Q2Qc (n # d)).

Definition Qc_eqb (a b : Qc) : bool :=
  match Qccompare a b with Eq => true | _ => false end.
Definition Qc_ltb (a b : Qc) : bool :=
  match Qccompare a b with Lt => true | _ => false end.

(** [x + y] *)
Definition num_add (x y : number) : number :=
  match x, y with
  | NaN, _ | _, NaN => NaN
  | Infinity s, Infinity s' => if Bool.eqb s s' then Infinity s else NaN
  | Infinity s, Finite _ | Finite _, Infinity s => Infinity s
  | Finite a, Finite b => Finite (a + b)%Qc
  end.

(** [- x] *)
Definition num_neg (x : number) : number :=
  match x with
  | NaN => NaN
  | Infinity s => Infinity (negb s)
  | Finite a => Finite (- a)%Qc
  end.

(** [x - y] *)
Definition num_sub (x y : number) : number :=
  match x, y with
  | NaN, _ | _, NaN => NaN
  | Infinity s, Infinity s' => if Bool.eqb s s' then NaN else Infinity s
  | Infinity s, Finite _ => Infinity s
  | Finite _, Infinity s => Infinity (negb s)
  | Finite a, Finite b => Finite (a - b)%Qc
  end.

(** [x * y] *)
Definition num_mul (x y : number) : number :=
  match x, y with
  | NaN, _ | _, NaN => NaN
  | Infinity s, Infinity s' => Infinity (xorb s s')
  | Infinity s, Finite q | Finite q, Infinity s =>
      match Qccompare q 0 with
      | Eq => NaN
      | Gt => Infinity s
      | Lt => Infinity (negb s)
      end
  | Finite a, Finite b => Finite (a * b)%Qc
  end.

(** [x / y].  Division by zero does not trap in JavaScript: it yields an
    infinity, or [NaN] for [0 / 0].  The zero of the model is [+0]. *)
Definition num_div (x y : number) : number :=
  match x, y with
  | NaN, _ | _, NaN => NaN
  | Infinity _, Infinity _ => NaN
  | Infinity s, Finite q =>
      match Qccompare q 0 with
      | Lt => Infinity (negb s)
      | _ => Infinity s
      end
  | Finite _, Infinity _ => Finite 0%Qc
  | Finite a, Finite b =>
      if Qc_eqb b 0 then
        match Qccompare a 0 with
        | Eq => NaN
        | Gt => Infinity false
        | Lt => Infinity true
        end
      else Finite (a / b)%Qc
  end.

(** [x < y]: false as soon as an operand is [NaN]. *)
Definition num_lt (x y : number) : bool :=
  match x, y with
  | NaN, _ | _, NaN => false
  | Infinity s, Infinity s' => s && negb s'
  | Infinity s, Finite _ => s
  | Finite _, Infinity s => negb s
  | Finite a, Finite b => Qc_ltb a b
  end.

(** [x > y] *)
Definition num_gt (x y : number) : bool := num_lt y x.

(** [isNaN(x)] on a number. *)
Definition isNaN (x : number) : bool :=
  match x with NaN => true | _ => false end.

(** [Math.max(x, y)]: [NaN] if either argument is, else the larger. *)
Definition Math_max (x y : number) : number :=
  match x, y with
  | NaN, _ | _, NaN => NaN
  | _, _ => if num_lt x y then y else x
  end.

(** Truthiness of a number, as [||] and [!] test it: [0] and [NaN] are
    falsy. *)
Definition num_truthy (x : number) : bool :=
  match x with
  | NaN => false
  | Infinity _ => true
  | Finite q => negb (Qc_eqb q 0)
  end.

(** [v || d] where [v] is the result of a property read: [undefined]
    ([None]) and falsy numbers give [d]. *)
Definition or_default (v : option number) (d : number) : number :=
  match v with
  | Some x => if num_truthy x then x else d
  | None => d
  end.

(** Boolean equality of numbers as values of the model ([NaN] equals
    itself here: this is not the [===] of the language). *)
Definition num_eqb (x y : number) : bool :=
  match x, y with
  | NaN, NaN => true
  | Infinity s, Infinity s' => Bool.eqb s s'
  | Finite a, Finite b => Qc_eqb a b
  | _, _ => false
  end.

(* ================================================================== *)
(** * Strings of decimal digits *)
(* ================================================================== *)

Definition digit_value (c : ascii) : option Z :=
  let n := Z.of_N (N_of_ascii c) in
  if (48 <=? n) && (n <=? 57) then Some (n - 48) else None.

Definition digit_char (d : Z) : ascii := ascii_of_N (Z.to_N (48 + d)).

(** The longest run of decimal digits at the head of [s]: its value on
    top of [acc], its length on top of [n], and what follows. *)
Fixpoint scan_digits (s : list ascii) (acc : Z) (n : nat)
  : Z * nat * list ascii :=
  match s with
  | c :: s' =>
      match digit_value c with
      | Some d => scan_digits s' (10 * acc + d) (S n)
      | None => (acc, n, s)
      end
  | [] => (acc, n, [])
  end.

Fixpoint strip_prefix (p s : list ascii) : option (list ascii) :=
  match p, s with
  | [], _ => Some s
  | c :: p', c' :: s' => if Ascii.eqb c c' then strip_prefix p' s' else None
  | _ :: _, [] => None
  end.

(* ================================================================== *)
(** * [parseFloat] *)
(* ================================================================== *)

(** A text is held as the bytes of its UTF-8 encoding.  [utf8_head s] is
    the code point at the head of [s], of one, two or three bytes, and
    what follows it; [None] at the end of the text and for any other
    head (a code point of four bytes, a malformed sequence). *)
Definition utf8_head (s : list ascii) : option (N * list ascii) :=
  let continuation (n : N) : bool := ((128 <=? n) && (n <? 192))%N in
  match s with
  | [] => None
  | b0 :: s1 =>
      let n0 := N_of_ascii b0 in
      if (n0 <? 128)%N then Some (n0, s1)
      else if ((194 <=? n0) && (n0 <? 224))%N then
        match s1 with
        | b1 :: s2 =>
            let n1 := N_of_ascii b1 in
            if continuation n1
            then Some (((n0 - 192) * 64 + (n1 - 128))%N, s2)
            else None
        | [] => None
        end
      else if ((224 <=? n0) && (n0 <? 240))%N then
        match s1 with
        | b1 :: b2 :: s3 =>
            let n1 := N_of_ascii b1 in
            let n2 := N_of_ascii b2 in
            let cp := ((n0 - 224) * 4096 + (n1 - 128) * 64 + (n2 - 128))%N in
            if continuation n1 && continuation n2 && (2048 <=? cp)%N
            then Some (cp, s3)
            else None
        | _ => None
        end
      else None
  end.

(** [StrWhiteSpaceChar], the code points that [parseFloat] skips at the
    head of its argument: the white space TAB, VT, FF, SP, NBSP (U+00A0),
    ZWNBSP (U+FEFF) and the other space separators U+1680, U+2000 to
    U+200A, U+202F, U+205F and U+3000, and the line terminators LF, CR,
    U+2028 and U+2029. *)
Definition isStrWhiteSpaceChar (cp : N) : bool :=
  ((cp =? 9) || (cp =? 10) || (cp =? 11) || (cp =? 12) || (cp =? 13)
   || (cp =? 32) || (cp =? 160) || (cp =? 5760)
   || ((8192 <=? cp) && (cp <=? 8202))
   || (cp =? 8232) || (cp =? 8233) || (cp =? 8239) || (cp =? 8287)
   || (cp =? 12288) || (cp =? 65279))%N.

(** [fuel] bounds the number of code points removed. *)
Fixpoint trim_start (fuel : nat) (s : list ascii) : list ascii :=
  match fuel with
  | O => s
  | S fuel' =>
      match utf8_head s with
      | Some (cp, rest) =>
          if isStrWhiteSpaceChar cp then trim_start fuel' rest else s
      | None => s
      end
  end.

(** The text without its leading white space and line terminators. *)
Definition trimStart (s : list ascii) : list ascii :=
  trim_start (List.length s) s.

Definition Qc_pow10 (e : Z) : Qc :=
  if 0 <=? e then Qc_of_Z (10 ^ e) else Q2Qc (1 # Z.to_pos (10 ^ (- e))).

(** [ExponentPart]: [e] or [E], an optional sign and at least one digit.
    Returns the exponent, [0] when no exponent part is present. *)
Definition scan_exponent (s : list ascii) : Z :=
  match s with
  | c :: s' =>
      if Ascii.eqb c "e" || Ascii.eqb c "E" then
        let '(neg, s'') :=
          match s' with
          | c' :: r =>
              if Ascii.eqb c' "-" then (true, r)
              else if Ascii.eqb c' "+" then (false, r)
              else (false, s')
          | [] => (false, s')
          end in
        let '(v, n, _) := scan_digits s'' 0 O in
        match n with
        | O => 0
        | S _ => if neg then - v else v
        end
      else 0
  | [] => 0
  end.

(** The least magnitude that binary64 rounds to an infinity: half way
    between the largest finite number, [2^1024 - 2^971], and [2^1024]. *)
Definition overflow_bound : Z := 2 ^ 1024 - 2 ^ 970.

(** The number that a decimal literal of value [q >= 0] denotes: from
    [overflow_bound] on it is [+Infinity]; below it the value is kept
    as it is written, without the rounding to the nearest binary64
    number. *)
Definition of_decimal (q : Qc) : number :=
  if Qc_ltb q (Qc_of_Z overflow_bound) then Finite q else Infinity false.

(** The value of the longest prefix of [s] that is a
    [StrUnsignedDecimalLiteral], [None] when no prefix is one. *)
Definition scan_unsigned (s : list ascii) : option number :=
  match strip_prefix (list_ascii_of_string "Infinity") s with
  | Some _ => Some (Infinity false)
  | None =>
      let '(ip, ni, r1) := scan_digits s 0 O in
      match r1 with
      | c :: r1' =>
          if Ascii.eqb c "." then
            let '(m, nf, r2) := scan_digits r1' ip O in
            match ni, nf with
            | O, O => None
            | _, _ =>
                Some (of_decimal
                        (Qc_of_Z m
                         * Qc_pow10 (scan_exponent r2 - Z.of_nat nf))%Qc)
            end
          else
            match ni with
            | O => None
            | S _ =>
                Some (of_decimal (Qc_of_Z ip * Qc_pow10 (scan_exponent r1))%Qc)
            end
      | [] =>
          match ni with
          | O => None
          | S _ => Some (of_decimal (Qc_of_Z ip))
          end
      end
  end.

(** [parseFloat(text)]: leading white space is skipped, the longest
    prefix that is a decimal literal is read and what follows it is
    ignored; [NaN] when there is no such prefix.  A literal too large
    for a finite binary64 number gives an infinity. *)
Definition parseFloat (text : string) : number :=
  let s := trimStart (list_ascii_of_string text) in
  match s with
  | c :: s' =>
      if Ascii.eqb c "-" then
        match scan_unsigned s' with Some v => num_neg v | None => NaN end
      else if Ascii.eqb c "+" then
        match scan_unsigned s' with Some v => v | None => NaN end
      else
        match scan_unsigned s with Some v => v | None => NaN end
  | [] => NaN
  end.

(* ================================================================== *)
(** * Time values and calendar fields (ECMAScript, Date objects) *)
(* ================================================================== *)

Definition msPerSecond : Z := 1000.
Definition msPerMinute : Z := 60000.
Definition msPerHour : Z := 3600000.
Definition msPerDay : Z := 86400000.

(** The largest magnitude of a time value: 100,000,000 days. *)
Definition maxTime : Z := 8640000000000000.

Definition Day (t : Z) : Z := t / msPerDay.
Definition TimeWithinDay (t : Z) : Z := t mod msPerDay.

Definition DaysInYear (y : Z) : Z :=
  if negb (y mod 4 =? 0) then 365
  else if negb (y mod 100 =? 0) then 366
  else if negb (y mod 400 =? 0) then 365
  else 366.

Definition DayFromYear (y : Z) : Z :=
  365 * (y - 1970) + (y - 1969) / 4 - (y - 1901) / 100 + (y - 1601) / 400.

Definition TimeFromYear (y : Z) : Z := msPerDay * DayFromYear y.

(** The year that contains day number [d]: an estimate from the mean
    length of a year, corrected by at most one. *)
Definition YearFromDay (d : Z) : Z :=
  let y := 1970 + (400 * d) / 146097 in
  if d <? DayFromYear y then y - 1
  else if DayFromYear (y + 1) <=? d then y + 1
  else y.

(** The largest [y] such that [TimeFromYear y <= t]. *)
Definition YearFromTime (t : Z) : Z := YearFromDay (Day t).

Definition InLeapYear (t : Z) : Z :=
  if DaysInYear (YearFromTime t) =? 366 then 1 else 0.

Definition DayWithinYear (t : Z) : Z := Day t - DayFromYear (YearFromTime t).

(** Month number of day [d] of a year, [leap] being 0 or 1; January is 0. *)
Definition month_of_yday (d leap : Z) : Z :=
  if d <? 31 then 0
  else if d <? 59 + leap then 1
  else if d <? 90 + leap then 2
  else if d <? 120 + leap then 3
  else if d <? 151 + leap then 4
  else if d <? 181 + leap then 5
  else if d <? 212 + leap then 6
  else if d <? 243 + leap then 7
  else if d <? 273 + leap then 8
  else if d <? 304 + leap then 9
  else if d <? 334 + leap then 10
  else 11.

(** Day number, within its year, of the first day of month [m]. *)
Definition yday_of_month (m leap : Z) : Z :=
  if m =? 0 then 0
  else if m =? 1 then 31
  else if m =? 2 then 59 + leap
  else if m =? 3 then 90 + leap
  else if m =? 4 then 120 + leap
  else if m =? 5 then 151 + leap
  else if m =? 6 then 181 + leap
  else if m =? 7 then 212 + leap
  else if m =? 8 then 243 + leap
  else if m =? 9 then 273 + leap
  else if m =? 10 then 304 + leap
  else 334 + leap.

Definition MonthFromTime (t : Z) : Z :=
  month_of_yday (DayWithinYear t) (InLeapYear t).

Definition DateFromTime (t : Z) : Z :=
  DayWithinYear t - yday_of_month (MonthFromTime t) (InLeapYear t) + 1.

(** Sunday is 0; the epoch was a Thursday. *)
Definition WeekDay (t : Z) : Z := (Day t + 4) mod 7.

Definition HourFromTime (t : Z) : Z := (t / msPerHour) mod 24.
Definition MinFromTime (t : Z) : Z := (t / msPerMinute) mod 60.
Definition SecFromTime (t : Z) : Z := (t / msPerSecond) mod 60.
Definition msFromTime (t : Z) : Z := t mod msPerSecond.

Definition MakeTime (hour min sec ms : Z) : Z :=
  hour * msPerHour + min * msPerMinute + sec * msPerSecond + ms.

(** The day number of day [date] of month [month] of [year]; months
    outside 0..11 carry into the year, days outside the month carry
    into the neighbouring months. *)
Definition MakeDay (year month date : Z) : Z :=
  let ym := year + month / 12 in
  let mn := month mod 12 in
  let leap := if DaysInYear ym =? 366 then 1 else 0 in
  DayFromYear ym + yday_of_month mn leap + date - 1.

Definition MakeDate (day time : Z) : Z := day * msPerDay + time.

Definition DaysInMonth (year month : Z) : Z :=
  MakeDay year (month + 1) 1 - MakeDay year month 1.

Inductive Date : Type :=
| InvalidDate
| TimeValue (tv : Z).

(** [TimeClip]: a time value out of range makes the date invalid. *)
Definition TimeClip (t : Z) : Date :=
  if maxTime <? Z.abs t then InvalidDate else TimeValue t.

(** A date that holds an instant within the range of time values. *)
Definition valid_time (t : Z) : Prop := - maxTime <= t <= maxTime.

Definition valid_Date (d : Date) : Prop :=
  match d with
  | InvalidDate => False
  | TimeValue t => valid_time t
  end.

(** [a >= b] and [a <= b] on dates: both operands are converted to their
    time values, and a comparison with [NaN] is false. *)
Definition Date_ge (a b : Date) : bool :=
  match a, b with
  | TimeValue x, TimeValue y => y <=? x
  | _, _ => false
  end.

Definition Date_le (a b : Date) : bool :=
  match a, b with
  | TimeValue x, TimeValue y => x <=? y
  | _, _ => false
  end.

(** [+a === +b] *)
Definition Date_same_instant (a b : Date) : bool :=
  match a, b with
  | TimeValue x, TimeValue y => x =? y
  | _, _ => false
  end.

(** ** Methods of [Date] that read or set local calendar fields *)

Section LocalTime.

(** Offset of local time from UTC, in milliseconds. *)
Variable tza : Z.

Definition LocalTime (t : Z) : Z := t + tza.
Definition UTC (t : Z) : Z := t - tza.

Definition getDay (t : Z) : Z := WeekDay (LocalTime t).
Definition getDate (t : Z) : Z := DateFromTime (LocalTime t).
Definition getMonth (t : Z) : Z := MonthFromTime (LocalTime t).
Definition getFullYear (t : Z) : Z := YearFromTime (LocalTime t).

(** [d.setDate(dt)] *)
Definition setDate (d : Date) (dt : Z) : Date :=
  match d with
  | InvalidDate => InvalidDate
  | TimeValue t =>
      let l := LocalTime t in
      TimeClip (UTC (MakeDate (MakeDay (YearFromTime l) (MonthFromTime l) dt)
                              (TimeWithinDay l)))
  end.

(** [d.setHours(h, m, s, ms)] *)
Definition setHours (d : Date) (h m s ms : Z) : Date :=
  match d with
  | InvalidDate => InvalidDate
  | TimeValue t =>
      TimeClip (UTC (MakeDate (Day (LocalTime t)) (MakeTime h m s ms)))
  end.

(** [d.setFullYear(y, m, dt)] *)
Definition setFullYear (d : Date) (y m dt : Z) : Date :=
  match d with
  | InvalidDate =>
      TimeClip (UTC (MakeDate (MakeDay y m dt) 0))
  | TimeValue t =>
      TimeClip (UTC (MakeDate (MakeDay y m dt) (TimeWithinDay (LocalTime t))))
  end.

(** ** date-fns

    The functions of date-fns that the component imports, written with
    the [Date] methods the library calls. *)

(** [startOfWeek(date, { weekStartsOn })] *)
Definition startOfWeek (date : Date) (weekStartsOn : Z) : Date :=
  match date with
  | InvalidDate => InvalidDate
  | TimeValue t =>
      let day := getDay t in
      let diff := (if day <? weekStartsOn then 7 else 0) + day - weekStartsOn in
      setHours (setDate date (getDate t - diff)) 0 0 0 0
  end.

(** [endOfWeek(date, { weekStartsOn })] *)
Definition endOfWeek (date : Date) (weekStartsOn : Z) : Date :=
  match date with
  | InvalidDate => InvalidDate
  | TimeValue t =>
      let day := getDay t in
      let diff :=
        (if day <? weekStartsOn then -7 else 0) + 6 - (day - weekStartsOn) in
      setHours (setDate date (getDate t + diff)) 23 59 59 999
  end.

(** [startOfMonth(date)] *)
Definition startOfMonth (date : Date) : Date :=
  setHours (setDate date 1) 0 0 0 0.

(** [endOfMonth(date)] *)
Definition endOfMonth (date : Date) : Date :=
  match date with
  | InvalidDate => InvalidDate
  | TimeValue t =>
      setHours (setFullYear date (getFullYear t) (getMonth t + 1) 0)
               23 59 59 999
  end.

(** [startOfDay(date)] *)
Definition startOfDay (date : Date) : Date := setHours date 0 0 0 0.

(** [isSameDay(a, b)] *)
Definition isSameDay (a b : Date) : bool :=
  Date_same_instant (startOfDay a) (startOfDay b).

(** [differenceInDays(later, earlier)]: the number of full days between
    the two dates, rounded towards zero; [NaN] when a date is invalid. *)
Definition differenceInDays (later earlier : Date) : number :=
  match later, earlier with
  | TimeValue a, TimeValue b => num (Z.quot (a - b) msPerDay)
  | _, _ => NaN
  end.

End LocalTime.

(* ================================================================== *)
(** * ISO-8601 date strings *)
(* ================================================================== *)

(** [n] written with exactly [w] decimal digits, most significant
    first. *)
Fixpoint pad_digits (w : nat) (n : Z) : list ascii :=
  match w with
  | O => []
  | S w' => digit_char (n / 10 ^ Z.of_nat w') :: pad_digits w' (n mod 10 ^ Z.of_nat w')
  end.

(** Reads exactly [w] decimal digits. *)
Fixpoint read_digits (w : nat) (acc : Z) (s : list ascii)
  : option (Z * list ascii) :=
  match w with
  | O => Some (acc, s)
  | S w' =>
      match s with
      | c :: s' =>
          match digit_value c with
          | Some d => read_digits w' (10 * acc + d) s'
          | None => None
          end
      | [] => None
      end
  end.

Definition expect (c : ascii) (s : list ascii) : option (list ascii) :=
  match s with
  | c' :: s' => if Ascii.eqb c c' then Some s' else None
  | [] => None
  end.

Notation "x <- e ;; k" :=
  (match e with Some x => k | None => None end)
  (at level 61, e at next level, right associativity, only parsing).
Notation "' p <- e ;; k" :=
  (match e with Some p => k | None => None end)
  (at level 61, p pattern, e at next level, right associativity, only parsing).

(** The year of an ISO string: four digits for the years 0 to 9999,
    otherwise a sign and six digits. *)
Definition format_year (y : Z) : list ascii :=
  if (0 <=? y) && (y <=? 9999) then pad_digits 4 y
  else if y <? 0 then "-"%char :: pad_digits 6 (- y)
  else "+"%char :: pad_digits 6 y.

(** [Date.prototype.toISOString]: [YYYY-MM-DDTHH:mm:ss.sssZ] in UTC.
    It throws a RangeError on an invalid date ([None]). *)
Definition toISOString (d : Date) : option string :=
  match d with
  | InvalidDate => None
  | TimeValue t =>
      Some (string_of_list_ascii
              (format_year (YearFromTime t)
               ++ "-"%char :: pad_digits 2 (MonthFromTime t + 1)
               ++ "-"%char :: pad_digits 2 (DateFromTime t)
               ++ "T"%char :: pad_digits 2 (HourFromTime t)
               ++ ":"%char :: pad_digits 2 (MinFromTime t)
               ++ ":"%char :: pad_digits 2 (SecFromTime t)
               ++ "."%char :: pad_digits 3 (msFromTime t)
               ++ ["Z"%char]))
  end.

Definition read_year (s : list ascii) : option (Z * list ascii) :=
  match s with
  | c :: s' =>
      if Ascii.eqb c "+" then read_digits 6 0 s'
      else if Ascii.eqb c "-" then
        '(y, r) <- read_digits 6 0 s' ;;
        if y =? 0 then None else Some (- y, r)
      else read_digits 4 0 s
  | [] => None
  end.

(** The time value of a string in the complete date-time format with the
    UTC designator, the format [toISOString] writes; [None] for any other
    string and for a field out of range. *)
Definition parse_iso (s : list ascii) : option Z :=
  '(y, s) <- read_year s ;;
  s <- expect "-" s ;;
  '(mo, s) <- read_digits 2 0 s ;;
  s <- expect "-" s ;;
  '(d, s) <- read_digits 2 0 s ;;
  s <- expect "T" s ;;
  '(h, s) <- read_digits 2 0 s ;;
  s <- expect ":" s ;;
  '(mi, s) <- read_digits 2 0 s ;;
  s <- expect ":" s ;;
  '(sec, s) <- read_digits 2 0 s ;;
  s <- expect "." s ;;
  '(ms, s) <- read_digits 3 0 s ;;
  s <- expect "Z" s ;;
  match s with
  | [] =>
      if (1 <=? mo) && (mo <=? 12)
         && (1 <=? d) && (d <=? DaysInMonth y (mo - 1))
         && ((h <=? 23) || ((h =? 24) && (mi =? 0) && (sec =? 0) && (ms =? 0)))
         && (mi <=? 59) && (sec <=? 59)
      then Some (MakeDate (MakeDay y (mo - 1) d) (MakeTime h mi sec ms))
      else None
  | _ :: _ => None
  end.

(** [new Date(text)] for a string argument.  Of the formats [Date.parse]
    accepts, the model reads the one [toISOString] writes; every other
    string gives an invalid date. *)
Definition Date_of_string (text : string) : Date :=
  match parse_iso (list_ascii_of_string text) with
  | Some t => TimeClip t
  | None => InvalidDate
  end.

(* ================================================================== *)
(** * Domain models *)
(* ================================================================== *)

Inductive Category : Type :=
| Mess_Food
| Metro_Auto
| Mobile_WiFi
| PG_Rent
| Photocopy_Stationery
| Social
| Misc.

Inductive PaymentMethod : Type :=
| UPI
| Cash
| Card.

Definition Category_eqb (a b : Category) : bool :=
  match a, b with
  | Mess_Food, Mess_Food | Metro_Auto, Metro_Auto | Mobile_WiFi, Mobile_WiFi
  | PG_Rent, PG_Rent | Photocopy_Stationery, Photocopy_Stationery
  | Social, Social | Misc, Misc => true
  | _, _ => false
  end.

(** The string a category is in the source. *)
Definition Category_name (c : Category) : string :=
  match c with
  | Mess_Food => "Mess/Food"
  | Metro_Auto => "Metro/Auto"
  | Mobile_WiFi => "Mobile/WiFi"
  | PG_Rent => "PG/Rent"
  | Photocopy_Stationery => "Photocopy/Stationery"
  | Social => "Social"
  | Misc => "Misc"
  end.

(** The plain record [Transaction.toJSON] returns and
    [Transaction.fromJSON] reads. *)
Module TransactionJSON.
Record t : Type := mk {
  id : string;
  amount : number;
  category : Category;
  method : PaymentMethod;
  date : string;
  note : string
}.
End TransactionJSON.

Module Transaction.

Record t : Type := mk {
  id : string;
  amount : number;
  category : Category;
  method : PaymentMethod;
  date : Date;
  note : string
}.

(** [new Transaction(amount, category, method, note, date)].  [fresh] is
    the identifier the constructor draws from [Math.random]. *)
Definition new (fresh : string) (amount : number) (category : Category)
    (method : PaymentMethod) (note : string) (date : Date) : t :=
  {| id := fresh;
     amount := amount;
     category := category;
     method := method;
     date := date;
     note := note |}.

(** [t.id = v] *)
Definition set_id (x : t) (v : string) : t :=
  {| id := v;
     amount := amount x;
     category := category x;
     method := method x;
     date := date x;
     note := note x |}.

(** [toJSON()]; [None] when [toISOString] throws. *)
Definition toJSON (x : t) : option TransactionJSON.t :=
  iso <- toISOString (date x) ;;
  Some {| TransactionJSON.id := id x;
          TransactionJSON.amount := amount x;
          TransactionJSON.category := category x;
          TransactionJSON.method := method x;
          TransactionJSON.date := iso;
          TransactionJSON.note := note x |}.

(** [Transaction.fromJSON(json)] *)
Definition fromJSON (fresh : string) (json : TransactionJSON.t) : t :=
  let x := new fresh
               (TransactionJSON.amount json)
               (TransactionJSON.category json)
               (TransactionJSON.method json)
               (TransactionJSON.note json)
               (Date_of_string (TransactionJSON.date json)) in
  set_id x (TransactionJSON.id json).

End Transaction.

Module Budget.

Record t : Type := mk {
  monthlyLimit : number;
  weeklyAllowance : number
}.

(** [new Budget()] with the default arguments. *)
Definition default : t :=
  {| monthlyLimit := num 25000; weeklyAllowance := num 4000 |}.

Definition getDailyLimit (b : t) (weeklySpent daysLeft : number) : number :=
  let remaining := Math_max (num 0) (num_sub (weeklyAllowance b) weeklySpent) in
  num_div remaining (Math_max (num 1) daysLeft).

End Budget.

(* ================================================================== *)
(** * The calculations of the [App] component *)
(* ================================================================== *)

(** [list.reduce((acc, t) => acc + t.amount, 0)] *)
Definition sum_amounts (l : list Transaction.t) : number :=
  fold_left (fun acc t => num_add acc (Transaction.amount t)) l (num 0).

(** [t => t.date >= start && t.date <= end] *)
Definition in_window (start end_ : Date) (t : Transaction.t) : bool :=
  Date_ge (Transaction.date t) start && Date_le (Transaction.date t) end_.

(** A JavaScript object used as a map from category names to numbers.
    Its entries are kept in the order in which the keys were first
    written, the order [Object.entries] lists them. *)
Definition counts_t : Type := list (Category * number).

(** [counts[c]], [None] standing for [undefined]. *)
Fixpoint counts_get (counts : counts_t) (c : Category) : option number :=
  match counts with
  | [] => None
  | (k, v) :: rest => if Category_eqb k c then Some v else counts_get rest c
  end.

(** [counts[c] = v] *)
Fixpoint counts_set (counts : counts_t) (c : Category) (v : number)
  : counts_t :=
  match counts with
  | [] => [(c, v)]
  | (k, w) :: rest =>
      if Category_eqb k c then (k, v) :: rest
      else (k, w) :: counts_set rest c v
  end.

(** The step of the [forEach] loop of [categoryData]:
    [counts[t.category] = (counts[t.category] || 0) + t.amount]. *)
Definition count_step (counts : counts_t) (t : Transaction.t) : counts_t :=
  counts_set counts (Transaction.category t)
    (num_add (or_default (counts_get counts (Transaction.category t)) (num 0))
             (Transaction.amount t)).

(** The body of the [categoryData] memo on a list of transactions: the
    loop from the empty object, then the entries as [{ name, value }]
    pairs in the order of [Object.entries]. *)
Definition category_totals (l : list Transaction.t) : counts_t :=
  fold_left count_step l [].

Section App.

Variable tza : Z.

(** The state of the component that the calculations read. *)
Variable transactions : list Transaction.t.
Variable budget : Budget.t.

(** The instant [new Date()] returns when the component renders. *)
Variable now : Z.

Definition today : Date := TimeValue now.
Definition weekStart : Date := startOfWeek tza today 1.
Definition weekEnd : Date := endOfWeek tza today 1.
Definition daysLeftInWeek : number :=
  num_add (differenceInDays weekEnd today) (num 1).

Definition weeklyTransactions : list Transaction.t :=
  filter (in_window weekStart weekEnd) transactions.

Definition weeklySpent : number := sum_amounts weeklyTransactions.

Definition dailyLimit : number :=
  Budget.getDailyLimit budget weeklySpent daysLeftInWeek.

Definition todaySpent : number :=
  sum_amounts
    (filter (fun t => isSameDay tza (Transaction.date t) today) transactions).

Definition dailyRemaining : number := num_sub dailyLimit todaySpent.

(** [dailyRemaining < 0], the test that shows the OVER badge. *)
Definition isOverDailyLimit : bool := num_lt dailyRemaining (num 0).

Definition miscSpent : number :=
  sum_amounts
    (filter (fun t => Category_eqb (Transaction.category t) Misc)
            weeklyTransactions).

Definition chaiIndexExceeded : bool :=
  num_gt miscSpent (num_mul (Budget.weeklyAllowance budget) (num_frac 15 100)).

Definition categoryData : counts_t := category_totals weeklyTransactions.

(** The figure shown as "Total Monthly Spend". *)
Definition monthlySpent : number :=
  sum_amounts
    (filter (fun t => Date_ge (Transaction.date t) (startOfMonth tza today))
            transactions).

End App.

(** ** The operations of the aggregation engine

    The component computes its windowed figures inline, for the current
    week.  These are the same expressions with the bounds of the window
    as arguments. *)

Definition sumInRange (transactions : list Transaction.t) (start end_ : Date)
  : number :=
  sum_amounts (filter (in_window start end_) transactions).

Definition sumByCategory (transactions : list Transaction.t)
    (start end_ : Date) : counts_t :=
  category_totals (filter (in_window start end_) transactions).

(* ================================================================== *)
(** * [handleAddTransaction] *)
(* ================================================================== *)

(** The state the handler reads and writes. *)
Record AppState : Type := mkAppState {
  st_transactions : list Transaction.t;
  st_isAddModalOpen : bool;
  st_newAmount : string;
  st_newCategory : Category;
  st_newMethod : PaymentMethod;
  st_newNote : string
}.

(** [fresh] is the identifier drawn by the constructor and [now] the
    instant of its default [date] argument. *)
Definition handleAddTransaction (fresh : string) (now : Z) (st : AppState)
  : AppState :=
  if String.eqb (st_newAmount st) "" || isNaN (parseFloat (st_newAmount st))
  then st
  else
    let t := Transaction.new fresh (parseFloat (st_newAmount st))
               (st_newCategory st) (st_newMethod st) (st_newNote st)
               (TimeValue now) in
    {| st_transactions := t :: st_transactions st;
       st_isAddModalOpen := false;
       st_newAmount := "";
       st_newCategory := st_newCategory st;
       st_newMethod := st_newMethod st;
       st_newNote := "" |}.

(* ================================================================== *)
(** * Reference definitions for the statements *)
(* ================================================================== *)

(** ** Sums and domains *)

(** The sum of the amounts of a list, by recursion on the list. *)
Fixpoint total_amount (l : list Transaction.t) : number :=
  match l with
  | [] => num 0
  | t :: rest => num_add (Transaction.amount t) (total_amount rest)
  end.

(** The sum of the values of a category mapping. *)
Fixpoint sum_values (counts : counts_t) : number :=
  match counts with
  | [] => num 0
  | (_, v) :: rest => num_add v (sum_values rest)
  end.

Definition is_finite (x : number) : Prop := exists q, x = Finite q.

(** A transaction whose amount is a finite number, as the decimal
    amounts of the data model are. *)
Definition has_finite_amount (t : Transaction.t) : Prop :=
  is_finite (Transaction.amount t).


(** A transaction whose date holds an instant, as the timestamps of the
    data model do. *)
Definition has_instant (t : Transaction.t) : Prop :=
  Transaction.date t <> InvalidDate.





(** The month window of the specification: the sum of the amounts dated
    from the start to the end of the current calendar month. *)
Definition month_window_total (tza : Z) (transactions : list Transaction.t)
    (now : Z) : number :=
  sumInRange transactions (startOfMonth tza (TimeValue now))
    (endOfMonth tza (TimeValue now)).

(** The statement of C5 as the specification words it: an amount text
    that is empty or does not parse to a finite number leaves the list of
    transactions as it was. *)
Definition rejects_all_but_finite : Prop :=
  forall (fresh : string) (now : Z) (st : AppState),
    st_newAmount st = ""%string
    \/ ~ is_finite (parseFloat (st_newAmount st)) ->
    st_transactions (handleAddTransaction fresh now st) = st_transactions st.

(** ** Weeks and months in closed form *)

(** An instant with a week of margin on both sides within the range of
    time values. *)
Definition week_margin (t : Z) : Prop :=
  - maxTime + 7 * msPerDay <= t <= maxTime - 7 * msPerDay.

(** The number of days from the Monday of its week to the day of the
    local instant [l]. *)
Definition days_since_monday (l : Z) : Z := (WeekDay l + 6) mod 7.

(** The local midnight that starts the week of the instant [t]. *)
Definition monday_midnight (tza t : Z) : Z :=
  (Day (t + tza) - days_since_monday (t + tza)) * msPerDay - tza.

(** An instant with a month of margin on both sides within the range of
    time values. *)
Definition month_margin (t : Z) : Prop :=
  - maxTime + 32 * msPerDay <= t <= maxTime - 32 * msPerDay.

(** The local midnight that starts the month of the instant [t]. *)
Definition first_midnight (tza t : Z) : Z :=
  (Day (t + tza) - DateFromTime (t + tza) + 1) * msPerDay - tza.

(** ** Sample data *)

(** Indian Standard Time, UTC+05:30. *)
Definition IST : Z := 19800000.

(** 2026-11-02 04:30:00.123 IST, a Monday. *)
Definition sample_now : Z := 1793574000123.

(** 2026-12-05 04:30:00.123 IST, in the month after that of [sample_now]. *)
Definition sample_next_month : Z := 1796425200123.

Definition sample_tx (id : string) (amount : Z) (c : Category) (at_ : Z)
  : Transaction.t :=
  Transaction.mk id (num amount) c UPI (TimeValue at_) "".

(** The text whose UTF-8 encoding is the given list of bytes. *)
Definition utf8_text (bytes : list Z) : string :=
  string_of_list_ascii (map (fun b => ascii_of_N (Z.to_N b)) bytes).

Definition sample_state (text : string) : AppState :=
  {| st_transactions := [sample_tx "k3j9x0a1b" 40 Mess_Food sample_now];
     st_isAddModalOpen := true;
     st_newAmount := text;
     st_newCategory := Misc;
     st_newMethod := Cash;
     st_newNote := "chai" |}.

(** Amounts on which the totals by category leave the data model: the
    running total of Misc becomes [NaN], which [||] then replaces by 0. *)
Definition nonfinite_sample : list Transaction.t :=
  [Transaction.mk "a" (Infinity false) Misc UPI (TimeValue sample_now) "";
   Transaction.mk "b" (Infinity true) Misc UPI (TimeValue sample_now) "";
   Transaction.mk "c" (num 5) Misc UPI (TimeValue sample_now) ""].

(* ================================================================== *)
(** * The figures on binary64 numbers *)
(* ================================================================== *)

(** The amounts the program adds and compares are IEEE 754 binary64
    numbers.  This module gives the numeric lines of the source a second
    time, over the binary64 numbers of the kernel ([float]), whose
    operations round as the JavaScript ones do (to nearest, ties to
    even, with infinities, [NaN] and the two zeros).  Dates, categories
    and the calendar are those of the definitions above. *)
Module B64.

(** The binary64 number that the literal [0.15] of the source denotes. *)
Definition literal_0_15 : float := 0x1.3333333333333p-3%float.

(** [Math.max(x, y)]: [NaN] if either argument is, else the larger, and
    [+0] rather than [-0] when the two are zeros of different sign. *)
Definition Math_max (x y : float) : float :=
  match PrimFloat.compare x y with
  | FNotComparable => PrimFloat.nan
  | FLt => y
  | FGt => x
  | FEq => match PrimFloat.classify x with NZero => y | _ => x end
  end.

(** Truthiness of a number, as [||] tests it: [+0], [-0] and [NaN] are
    falsy. *)
Definition truthy (x : float) : bool :=
  negb (PrimFloat.is_nan x || PrimFloat.is_zero x).

(** [v || d] on the result [v] of a property read, [None] standing for
    [undefined]. *)
Definition or_default (v : option float) (d : float) : float :=
  match v with
  | Some x => if truthy x then x else d
  | None => d
  end.

Module Transaction.

Record t : Type := mk {
  id : string;
  amount : float;
  category : Category;
  method : PaymentMethod;
  date : Date;
  note : string
}.

End Transaction.

Module Budget.

Record t : Type := mk {
  monthlyLimit : float;
  weeklyAllowance : float
}.

(** [new Budget()] *)
Definition default : t := mk 25000%float 4000%float.

Definition getDailyLimit (b : t) (weeklySpent daysLeft : float) : float :=
  let remaining := Math_max 0%float (weeklyAllowance b - weeklySpent)%float in
  (remaining / Math_max 1%float daysLeft)%float.

End Budget.

(** [list.reduce((acc, t) => acc + t.amount, 0)] *)
Definition sum_amounts (l : list Transaction.t) : float :=
  fold_left (fun acc t => (acc + Transaction.amount t)%float) l 0%float.

(** [t => t.date >= start && t.date <= end] *)
Definition in_window (start end_ : Date) (t : Transaction.t) : bool :=
  Date_ge (Transaction.date t) start && Date_le (Transaction.date t) end_.

Definition counts_t : Type := list (Category * float).

(** [counts[c]] *)
Fixpoint counts_get (counts : counts_t) (c : Category) : option float :=
  match counts with
  | [] => None
  | (k, v) :: rest => if Category_eqb k c then Some v else counts_get rest c
  end.

(** [counts[c] = v] *)
Fixpoint counts_set (counts : counts_t) (c : Category) (v : float)
  : counts_t :=
  match counts with
  | [] => [(c, v)]
  | (k, w) :: rest =>
      if Category_eqb k c then (k, v) :: rest
      else (k, w) :: counts_set rest c v
  end.

(** [counts[t.category] = (counts[t.category] || 0) + t.amount] *)
Definition count_step (counts : counts_t) (t : Transaction.t) : counts_t :=
  counts_set counts (Transaction.category t)
    (or_default (counts_get counts (Transaction.category t)) 0%float
     + Transaction.amount t)%float.

Definition category_totals (l : list Transaction.t) : counts_t :=
  fold_left count_step l [].

Section App.

Variable tza : Z.
Variable transactions : list Transaction.t.
Variable budget : Budget.t.
Variable now : Z.

Definition weeklyTransactions : list Transaction.t :=
  filter (in_window (weekStart tza now) (weekEnd tza now)) transactions.

Definition weeklySpent : float := sum_amounts weeklyTransactions.

Definition miscSpent : float :=
  sum_amounts
    (filter (fun t => Category_eqb (Transaction.category t) Misc)
            weeklyTransactions).

(** [miscSpent > (budget.weeklyAllowance * 0.15)] *)
Definition chaiIndexExceeded : bool :=
  (Budget.weeklyAllowance budget * literal_0_15 <? miscSpent)%float.

Definition categoryData : counts_t := category_totals weeklyTransactions.

End App.

(** The windowed figures with the bounds of the window as arguments. *)
Definition sumInRange (transactions : list Transaction.t) (start end_ : Date)
  : float :=
  sum_amounts (filter (in_window start end_) transactions).

Definition sumByCategory (transactions : list Transaction.t)
    (start end_ : Date) : counts_t :=
  category_totals (filter (in_window start end_) transactions).

(** ** Reference definitions *)

(** A transaction of category Misc dated from the instant [lo] to the
    instant [hi], both included. *)
Definition misc_dated_within (lo hi : Z) (t : Transaction.t) : bool :=
  match Transaction.date t with
  | TimeValue d =>
      Category_eqb (Transaction.category t) Misc && (lo <=? d) && (d <=? hi)
  | InvalidDate => false
  end.

(** The sum of the values of a category mapping, in the order of its
    entries. *)
Definition sum_values (counts : counts_t) : float :=
  fold_left (fun acc kv => (acc + snd kv)%float) counts 0%float.

(** The total of the category [c] as the loop of [categoryData] builds
    it from the transactions of that category in [l], in the order of
    the list: each amount is added to the total so far, or to 0 when
    there is none yet or when it is falsy. *)
Definition category_sum (c : Category) (l : list Transaction.t)
  : option float :=
  fold_left
    (fun v t => Some (or_default v 0%float + Transaction.amount t)%float)
    (filter (fun t => Category_eqb (Transaction.category t) c) l)
    None.

(** The statement of the specification on the totals by category: on
    every list and every window they add up to the windowed sum. *)
Definition totals_add_up : Prop :=
  forall (txs : list Transaction.t) (start end_ : Date),
    sum_values (sumByCategory txs start end_) = sumInRange txs start end_.

(** ** Sample data *)

Definition tx (amount : float) (c : Category) (at_ : Z) : Transaction.t :=
  Transaction.mk "" amount c UPI (TimeValue at_) "".

(** The week of [sample_now] in Indian Standard Time: from Monday
    2026-11-02 00:00:00.000 to Sunday 2026-11-08 23:59:59.999. *)
Definition sample_monday : Z := 1793557800000.
Definition sample_sunday_end : Z := 1794162599999.

(** Misc expenses of 100 and 50 on the first and on the last millisecond
    of that week, two more just outside it, and an expense of another
    category inside it. *)
Definition week_edges_sample : list Transaction.t :=
  [tx 100 Misc sample_monday;
   tx 30 Misc (sample_monday - 1);
   tx 500 Mess_Food sample_now;
   tx 50 Misc sample_sunday_end;
   tx 70 Misc (sample_sunday_end + 1)].

(** The amounts 0.1, 0.1 and 0.65, the first and the last of the same
    category. *)
Definition rounding_sample : list Transaction.t :=
  [tx 0x1.999999999999ap-4 Mess_Food sample_now;
   tx 0x1.999999999999ap-4 Misc sample_now;
   tx 0x1.4cccccccccccdp-1 Mess_Food sample_now].

(** Misc amounts of 598.48, 1.44 and 0.08. *)
Definition threshold_sample : list Transaction.t :=
  [tx 0x1.2b3d70a3d70a4p+9 Misc sample_now;
   tx 0x1.70a3d70a3d70ap+0 Misc sample_now;
   tx 0x1.47ae147ae147bp-4 Misc sample_now].

End B64.

(** ** Shapes of binary64 numbers

    The kernel specifies its binary64 operations on [spec_float], the
    sign, mantissa and exponent of a number. *)

(** A positive number or [+Infinity]. *)
Definition SF_positive (s : spec_float) : bool :=
  match s with
  | S754_infinity false | S754_finite false _ _ => true
  | _ => false
  end.

(** The sign of a number is not set: it is [NaN], [+0], a positive
    number or [+Infinity]. *)
Definition SF_sign_plus (s : spec_float) : bool :=
  match s with
  | S754_zero false | S754_infinity false | S754_finite false _ _ | S754_nan => true
  | _ => false
  end.

(* ================================================================== *)
(** * More of the component *)
(* ================================================================== *)

(** [Math.min(x, y)]: [NaN] if either argument is, else the smaller. *)
Definition Math_min (x y : number) : number :=
  match x, y with
  | NaN, _ | _, NaN => NaN
  | _, _ => if num_lt y x then y else x
  end.

(** The width, in percent, of the bar under "Total Monthly Spend":
    [Math.min(100, (monthlySpent / budget.monthlyLimit) * 100)]. *)
Definition monthlyProgressWidth (tza : Z) (transactions : list Transaction.t)
    (budget : Budget.t) (now : Z) : number :=
  Math_min (num 100)
    (num_mul (num_div (monthlySpent tza transactions now)
                      (Budget.monthlyLimit budget))
             (num 100)).

Definition COLORS : list string :=
  ["#10b981"; "#3b82f6"; "#f59e0b"; "#ef4444"; "#8b5cf6"; "#ec4899";
   "#64748b"]%string.

(** [COLORS[index % COLORS.length]], the fill of the slice and of the
    legend dot of the entry at [index] of [categoryData]. *)
Definition cell_fill (index : nat) : option string :=
  nth_error COLORS (Nat.modulo index (List.length COLORS)).

(** ** The simulated bank message *)

(** The decimal digits of a non-negative integer, most significant
    first, at most [fuel] of them. *)
Fixpoint digit_list (fuel : nat) (n : Z) : list Z :=
  match fuel with
  | O => []
  | S f => if n <? 10 then [n] else digit_list f (n / 10) ++ [n mod 10]
  end.

(** [n.toString()] for an integer [n] of magnitude below 10^21, which the
    language prints as its decimal digits without an exponent. *)
Definition Z_toString (n : Z) : string :=
  string_of_list_ascii
    (if n <? 0 then "-"%char :: map digit_char (digit_list 21 (- n))
     else map digit_char (digit_list 21 n)).

(** [simulateSMS].  [random] is the value [Math.random()] returns;
    [Math.floor(random * 200) + 20] is an integer. *)
Definition simulateSMS (random : Qc) (st : AppState) : AppState :=
  let amount := Qfloor (random * Qc_of_Z 200)%Qc + 20 in
  {| st_transactions := st_transactions st;
     st_isAddModalOpen := true;
     st_newAmount := Z_toString amount;
     st_newCategory := Mess_Food;
     st_newMethod := st_newMethod st;
     st_newNote := "Simulated from SMS" |}.

(** ** Saving and loading *)

(** *** Saving *)

(** The object the save effect hands to [JSON.stringify]. *)
Record Snapshot : Type := mkSnapshot {
  snap_transactions : list TransactionJSON.t;
  snap_monthlyLimit : number;
  snap_weeklyAllowance : number
}.

(** [transactions.map(t => t.toJSON())]: the map throws as soon as one
    call does. *)
Fixpoint save_transactions (l : list Transaction.t)
  : option (list TransactionJSON.t) :=
  match l with
  | [] => Some []
  | t :: rest =>
      j <- Transaction.toJSON t ;;
      js <- save_transactions rest ;;
      Some (j :: js)
  end.

(** The argument of [JSON.stringify] in the save effect. *)
Definition saved_snapshot (transactions : list Transaction.t)
    (budget : Budget.t) : option Snapshot :=
  js <- save_transactions transactions ;;
  Some {| snap_transactions := js;
          snap_monthlyLimit := Budget.monthlyLimit budget;
          snap_weeklyAllowance := Budget.weeklyAllowance budget |}.

(** *** Loading *)

(** What [JSON.parse] reads back from the text [JSON.stringify] wrote for
    a number: a finite number as it was, and [null] ([None]) for [NaN]
    and the infinities, which [JSON.stringify] writes as [null]. *)
Definition JSON_number (x : number) : option number :=
  match x with
  | Finite _ => Some x
  | _ => None
  end.

(** The objects [JSON.parse] returns for the text [JSON.stringify] wrote
    for the records of the save effect: every string is read back as it
    was written, every number as [JSON_number] says. *)
Record ParsedTransaction : Type := mkParsedTransaction {
  parsed_id : string;
  parsed_amount : option number;
  parsed_category : Category;
  parsed_method : PaymentMethod;
  parsed_date : string;
  parsed_note : string
}.

Record ParsedSnapshot : Type := mkParsedSnapshot {
  parsed_transactions : list ParsedTransaction;
  parsed_monthlyLimit : option number;
  parsed_weeklyAllowance : option number
}.

Definition JSON_transaction (j : TransactionJSON.t) : ParsedTransaction :=
  {| parsed_id := TransactionJSON.id j;
     parsed_amount := JSON_number (TransactionJSON.amount j);
     parsed_category := TransactionJSON.category j;
     parsed_method := TransactionJSON.method j;
     parsed_date := TransactionJSON.date j;
     parsed_note := TransactionJSON.note j |}.

(** [JSON.parse(JSON.stringify(snapshot))] *)
Definition JSON_roundtrip (snapshot : Snapshot) : ParsedSnapshot :=
  {| parsed_transactions := map JSON_transaction (snap_transactions snapshot);
     parsed_monthlyLimit := JSON_number (snap_monthlyLimit snapshot);
     parsed_weeklyAllowance := JSON_number (snap_weeklyAllowance snapshot) |}.

(** [Transaction.fromJSON(t)] on a parsed record.  An amount that is
    [null] is not a number: the result is then outside this model
    ([None]). *)
Definition fromParsed (fresh : string) (p : ParsedTransaction)
  : option Transaction.t :=
  amount <- parsed_amount p ;;
  Some (Transaction.fromJSON fresh
          {| TransactionJSON.id := parsed_id p;
             TransactionJSON.amount := amount;
             TransactionJSON.category := parsed_category p;
             TransactionJSON.method := parsed_method p;
             TransactionJSON.date := parsed_date p;
             TransactionJSON.note := parsed_note p |}).

(** [parsed.transactions.map((t) => Transaction.fromJSON(t))];
    [fresh i] is the identifier the constructor draws in call [i]. *)
Fixpoint load_transactions (fresh : nat -> string) (i : nat)
    (l : list ParsedTransaction) : option (list Transaction.t) :=
  match l with
  | [] => Some []
  | p :: rest =>
      t <- fromParsed (fresh i) p ;;
      ts <- load_transactions fresh (S i) rest ;;
      Some (t :: ts)
  end.

(** The load effect on the state [(transactions, budget)], [saved]
    being what [JSON.parse] returns for the stored text: nothing stored
    ([None]) leaves the state as it is. *)
Definition load_effect (fresh : nat -> string) (saved : option ParsedSnapshot)
    (state : list Transaction.t * Budget.t)
  : option (list Transaction.t * Budget.t) :=
  match saved with
  | None => Some state
  | Some parsed =>
      txs <- load_transactions fresh 0 (parsed_transactions parsed) ;;
      monthlyLimit <- parsed_monthlyLimit parsed ;;
      weeklyAllowance <- parsed_weeklyAllowance parsed ;;
      Some (txs, {| Budget.monthlyLimit := monthlyLimit;
                    Budget.weeklyAllowance := weeklyAllowance |})
  end.

(** A transaction whose date holds an instant in the range of time
    values. *)
Definition has_valid_date (t : Transaction.t) : Prop :=
  valid_Date (Transaction.date t).

(** ** Reference definitions for the further properties *)


(** The categories of [l] in the order of their first occurrence, those
    of [seen] left out. *)
Fixpoint first_occurrences (seen l : list Category) : list Category :=
  match l with
  | [] => []
  | c :: rest =>
      if existsb (Category_eqb c) seen then first_occurrences seen rest
      else c :: first_occurrences (seen ++ [c]) rest
  end.

(** A transaction whose amount is a finite number that is not
    negative. *)
Definition has_nonneg_amount (t : Transaction.t) : Prop :=
  exists q, Transaction.amount t = Finite q /\ (0 <= q)%Qc.

(** A list of transactions dated at the latest at [now]. *)
Definition none_in_future (l : list Transaction.t) (now : Z) : Prop :=
  forall t, In t l -> Date_le (Transaction.date t) (TimeValue now) = true.

(** Goals on [Qc] restated on [Q], where linear arithmetic decides
    them. *)
Ltac qc_to_q :=
  unfold Qcle, Qclt, Qcminus, Qcplus, Qcopp, Qcmult, Qc_of_Z in *;
  cbn [this Q2Qc] in *;
  rewrite ?Qred_correct in *;
  unfold inject_Z in *.

Definition is_digit (d : Z) : Prop := 0 <= d <= 9.

(** The number a list of decimal digits denotes, on top of [acc]. *)
Definition digits_value (ds : list Z) (acc : Z) : Z :=
  fold_left (fun a d => 10 * a + d) ds acc.

(** The seven categories. *)
Definition all_categories : list Category :=
  [Mess_Food; Metro_Auto; Mobile_WiFi; PG_Rent; Photocopy_Stationery; Social;
   Misc].


(* ================================================================== *)
(** * Properties of the number operations *)
(* ================================================================== *)

Lemma Qc_ltb_lt (a b : Qc) : Qc_ltb a b = true <-> (a < b)%Qc.
Proof.
  unfold Qc_ltb. rewrite Qclt_alt.
  destruct (Qccompare a b); split; intro H; try reflexivity; discriminate H.
Qed.

Lemma Qc_eqb_eq (a b : Qc) : Qc_eqb a b = true <-> a = b.
Proof.
  unfold Qc_eqb. rewrite Qceq_alt.
  destruct (Qccompare a b); split; intro H; try reflexivity; discriminate H.
Qed.

Lemma Qc_ltb_irrefl (a : Qc) : Qc_ltb a a = false.
Proof.
  destruct (Qc_ltb a a) eqn:E; [|reflexivity].
  apply Qc_ltb_lt in E. exfalso. revert E. apply Qcle_not_lt, Qcle_refl.
Qed.

Lemma Qc_ltb_ge (a b : Qc) : Qc_ltb a b = false <-> (b <= a)%Qc.
Proof.
  split; intro H.
  - apply Qcnot_lt_le. intro L. apply Qc_ltb_lt in L. congruence.
  - destruct (Qc_ltb a b) eqn:E; [|reflexivity].
    apply Qc_ltb_lt in E. exfalso. exact (Qcle_not_lt _ _ H E).
Qed.

Lemma Qc_eqb_refl (a : Qc) : Qc_eqb a a = true.
Proof. now apply Qc_eqb_eq. Qed.

Lemma Qc_eqb_neq (a b : Qc) : Qc_eqb a b = false <-> a <> b.
Proof.
  split; intro H.
  - intro E. apply Qc_eqb_eq in E. congruence.
  - destruct (Qc_eqb a b) eqn:E; [|reflexivity].
    apply Qc_eqb_eq in E. contradiction.
Qed.

(** Equality of numbers is decided by comparing the rationals. *)
Lemma num_eqb_eq (x y : number) : num_eqb x y = true -> x = y.
Proof.
  destruct x as [|s|a], y as [|s'|b]; simpl; intro H; try discriminate H.
  - reflexivity.
  - apply Bool.eqb_prop in H. now subst.
  - apply Qc_eqb_eq in H. now subst.
Qed.

Lemma num_add_comm (x y : number) : num_add x y = num_add y x.
Proof.
  destruct x as [|s|a], y as [|s'|b]; simpl; try reflexivity.
  - destruct s, s'; reflexivity.
  - f_equal. ring.
Qed.

Lemma num_add_assoc (x y z : number) :
  num_add (num_add x y) z = num_add x (num_add y z).
Proof.
  destruct x as [|s|a], y as [|s'|b], z as [|s''|c]; simpl;
    try reflexivity;
    try (destruct s; reflexivity);
    try (destruct s, s'; reflexivity);
    try (destruct s', s''; reflexivity);
    try (destruct s, s''; reflexivity).
  - destruct s, s', s''; reflexivity.
  - f_equal. ring.
Qed.

Lemma num_add_0_l (x : number) : num_add (num 0) x = x.
Proof.
  destruct x as [|s|a]; simpl; try reflexivity.
  f_equal. apply Qcplus_0_l.
Qed.

Lemma num_add_0_r (x : number) : num_add x (num 0) = x.
Proof. rewrite num_add_comm. apply num_add_0_l. Qed.

Lemma num_sub_0_r (x : number) : num_sub x (num 0) = x.
Proof.
  destruct x as [|s|a]; simpl; try reflexivity.
  f_equal. change (Qc_of_Z 0) with 0%Qc. ring.
Qed.

Lemma num_lt_irrefl (x : number) : num_lt x x = false.
Proof.
  destruct x as [|s|a]; simpl.
  - reflexivity.
  - destruct s; reflexivity.
  - apply Qc_ltb_irrefl.
Qed.

(** The shapes [Math.max(c, x)] can take for a finite [c]: [NaN] when
    [x] is, else a value that is at least [c]. *)
Lemma Math_max_finite_l (c : Qc) (x : number) :
  Math_max (Finite c) x = NaN
  \/ Math_max (Finite c) x = Infinity false
  \/ exists q, Math_max (Finite c) x = Finite q /\ (c <= q)%Qc.
Proof.
  destruct x as [|s|a]; simpl.
  - now left.
  - destruct s; simpl.
    + right. right. exists c. split; [reflexivity | apply Qcle_refl].
    + right. now left.
  - right. right. destruct (Qc_ltb c a) eqn:E.
    + exists a. split; [reflexivity|]. apply Qc_ltb_lt in E.
      now apply Qclt_le_weak.
    + exists c. split; [reflexivity | apply Qcle_refl].
Qed.

Lemma Qc_div_nonneg (a b : Qc) :
  (0 <= a)%Qc -> (1 <= b)%Qc -> (0 <= a / b)%Qc.
Proof.
  intros Ha Hb.
  assert (Hb0 : (0 < b)%Qc).
  { apply Qclt_le_trans with (y := 1%Qc); [reflexivity | exact Hb]. }
  apply Qcmult_lt_0_le_reg_r with (z := b); [exact Hb0|].
  rewrite Qcmult_0_l.
  replace (a / b * b)%Qc with a; [exact Ha|].
  field. intro E. rewrite E in Hb0. revert Hb0. apply Qcle_not_lt, Qcle_refl.
Qed.

Lemma Qc_one_le_neq_0 (b : Qc) : (1 <= b)%Qc -> b <> 0%Qc.
Proof.
  intros Hb E. subst b. revert Hb. apply Qclt_not_le. reflexivity.
Qed.

(* ================================================================== *)
(** * Budget policy *)
(* ================================================================== *)

(** The daily limit never compares below zero. *)
Lemma getDailyLimit_not_negative (b : Budget.t) (weeklySpent daysLeft : number) :
  num_lt (Budget.getDailyLimit b weeklySpent daysLeft) (num 0) = false.
Proof.
  unfold Budget.getDailyLimit.
  destruct (Math_max_finite_l (Qc_of_Z 0)
              (num_sub (Budget.weeklyAllowance b) weeklySpent))
    as [H | [H | (a & Ha & La)]];
  destruct (Math_max_finite_l (Qc_of_Z 1) daysLeft)
    as [H' | [H' | (c & Hc & Lc)]];
  unfold num; rewrite ?H, ?H', ?Ha, ?Hc; simpl; try reflexivity.
  - assert (Gt0 : Qccompare c 0 = Gt).
    { apply Qcgt_alt.
      apply Qclt_le_trans with (y := Qc_of_Z 1); [reflexivity | exact Lc]. }
    rewrite Gt0. reflexivity.
  - assert (Ec : Qc_eqb c 0 = false) by (apply Qc_eqb_neq, Qc_one_le_neq_0, Lc).
    rewrite Ec. simpl. apply Qc_ltb_ge. now apply Qc_div_nonneg.
Qed.

(* ================================================================== *)
(** * Sums over lists of transactions *)
(* ================================================================== *)

Lemma fold_add_shift (l : list Transaction.t) (a : number) :
  fold_left (fun acc t => num_add acc (Transaction.amount t)) l a
  = num_add a (sum_amounts l).
Proof.
  unfold sum_amounts. revert a.
  induction l as [|t l IH]; intro a; cbn [fold_left].
  - now rewrite num_add_0_r.
  - rewrite IH, (IH (num_add (num 0) _)), num_add_0_l.
    apply num_add_assoc.
Qed.

Lemma sum_amounts_cons (t : Transaction.t) (l : list Transaction.t) :
  sum_amounts (t :: l) = num_add (Transaction.amount t) (sum_amounts l).
Proof.
  unfold sum_amounts at 1. cbn [fold_left].
  now rewrite fold_add_shift, num_add_0_l.
Qed.

(** The [reduce] of the source computes the sum of the amounts. *)
Lemma sum_amounts_total (l : list Transaction.t) :
  sum_amounts l = total_amount l.
Proof.
  induction l as [|t l IH]; [reflexivity|].
  rewrite sum_amounts_cons, IH. reflexivity.
Qed.


Lemma filter_none (A : Type) (f : A -> bool) (l : list A) :
  (forall x, In x l -> f x = false) -> filter f l = [].
Proof.
  induction l as [|x l IH]; intro H; simpl; [reflexivity|].
  rewrite (H x (or_introl eq_refl)).
  apply IH. intros y Hy. apply H. now right.
Qed.

Lemma Category_eqb_eq (a b : Category) : Category_eqb a b = true <-> a = b.
Proof. destruct a, b; simpl; split; intro H; congruence. Qed.

Lemma Category_eqb_refl (a : Category) : Category_eqb a a = true.
Proof. now apply Category_eqb_eq. Qed.

(* ================================================================== *)
(** * Chai-Index alert *)
(* ================================================================== *)

Lemma Qc_frac_15_100_pos : (0 < Q2Qc (15 # 100))%Qc.
Proof. reflexivity. Qed.

(** Nothing is strictly below 0.15 times a positive allowance unless it
    is below zero. *)
Lemma threshold_of_positive (wa : number) :
  num_lt (num 0) wa = true ->
  num_lt (num_mul wa (num_frac 15 100)) (num 0) = false.
Proof.
  destruct wa as [|s|q]; simpl; intro H; try discriminate H.
  - destruct s; [discriminate H | reflexivity].
  - apply Qc_ltb_lt in H. apply Qc_ltb_ge.
    change (Qc_of_Z 0) with 0%Qc in *.
    rewrite <- (Qcmult_0_l (Q2Qc (15 # 100))).
    apply Qcmult_le_compat_r.
    + now apply Qclt_le_weak.
    + apply Qclt_le_weak. exact Qc_frac_15_100_pos.
Qed.

(** C9.  When no transaction of the current week is of category Misc and
    the weekly allowance is positive, the Misc spend of the week is 0 and
    the alert is not raised. *)
Theorem chaiIndex_without_misc (tza : Z) (txs : list Transaction.t)
    (b : Budget.t) (now : Z) :
  (forall t, In t (weeklyTransactions tza txs now) ->
             Transaction.category t <> Misc) ->
  num_lt (num 0) (Budget.weeklyAllowance b) = true ->
  miscSpent tza txs now = num 0
  /\ chaiIndexExceeded tza txs b now = false.
Proof.
  intros Hmisc Hpos.
  assert (E : miscSpent tza txs now = num 0).
  { unfold miscSpent. rewrite filter_none; [reflexivity|].
    intros t Ht. destruct (Category_eqb _ Misc) eqn:C; [|reflexivity].
    apply Category_eqb_eq in C. now apply Hmisc in Ht. }
  split; [exact E|].
  unfold chaiIndexExceeded, num_gt. rewrite E.
  now apply threshold_of_positive.
Qed.

Lemma chaiIndex_without_misc_witness :
  miscSpent IST [sample_tx "a" 100 Mess_Food sample_now;
                 sample_tx "b" 900 Misc 0] sample_now = num 0
  /\ chaiIndexExceeded IST [sample_tx "a" 100 Mess_Food sample_now;
                            sample_tx "b" 900 Misc 0]
       Budget.default sample_now = false.
Proof.
  apply (chaiIndex_without_misc IST
           [sample_tx "a" 100 Mess_Food sample_now; sample_tx "b" 900 Misc 0]
           Budget.default sample_now).
  - vm_compute. intros t [E | []]. subst t. discriminate.
  - vm_compute. reflexivity.
Defined.

(* ================================================================== *)
(** * The aggregates on an empty list *)
(* ================================================================== *)

(** C8.  On an empty transaction list every aggregate is at its neutral
    value: nothing spent this week, this month or today, no Misc spend,
    the daily remainder is the daily limit and does not show as
    overspent, and the category mapping is empty. *)
Theorem aggregates_of_empty_list (tza : Z) (b : Budget.t) (now : Z) :
  weeklySpent tza [] now = num 0
  /\ todaySpent tza [] now = num 0
  /\ dailyRemaining tza [] b now = dailyLimit tza [] b now
  /\ isOverDailyLimit tza [] b now = false
  /\ categoryData tza [] now = []
  /\ miscSpent tza [] now = num 0
  /\ monthlySpent tza [] now = num 0.
Proof.
  assert (R : dailyRemaining tza [] b now = dailyLimit tza [] b now).
  { unfold dailyRemaining.
    change (todaySpent tza [] now) with (num 0). apply num_sub_0_r. }
  repeat split; try reflexivity.
  - exact R.
  - unfold isOverDailyLimit. rewrite R. apply getDailyLimit_not_negative.
Qed.

(* ================================================================== *)
(** * Adding a transaction *)
(* ================================================================== *)

Lemma String_eqb_empty (s : string) : String.eqb s "" = true -> s = ""%string.
Proof. apply String.eqb_eq. Qed.

(** The guard of the handler: an empty text parses to [NaN], so the
    guard is the [isNaN] test alone. *)
Lemma handleAddTransaction_guard (text : string) :
  String.eqb text "" || isNaN (parseFloat text) = isNaN (parseFloat text).
Proof.
  destruct (String.eqb text "") eqn:E; [|reflexivity].
  apply String_eqb_empty in E. subst text. reflexivity.
Qed.

Lemma handleAddTransaction_rejects (fresh : string) (now : Z) (st : AppState) :
  isNaN (parseFloat (st_newAmount st)) = true ->
  handleAddTransaction fresh now st = st.
Proof.
  intro H. unfold handleAddTransaction.
  now rewrite handleAddTransaction_guard, H.
Qed.

Lemma handleAddTransaction_accepts (fresh : string) (now : Z) (st : AppState) :
  isNaN (parseFloat (st_newAmount st)) = false ->
  handleAddTransaction fresh now st
  = {| st_transactions :=
         Transaction.mk fresh (parseFloat (st_newAmount st))
           (st_newCategory st) (st_newMethod st) (TimeValue now)
           (st_newNote st)
         :: st_transactions st;
       st_isAddModalOpen := false;
       st_newAmount := "";
       st_newCategory := st_newCategory st;
       st_newMethod := st_newMethod st;
       st_newNote := "" |}.
Proof.
  intro H. unfold handleAddTransaction.
  now rewrite handleAddTransaction_guard, H.
Qed.

Lemma cons_neq (A : Type) (x : A) (l : list A) : x :: l <> l.
Proof.
  intro E. apply (f_equal (@List.length A)) in E. cbn [List.length] in E. lia.
Qed.

(** C5, as stated, fails: the texts [1e400] and [Infinity] are not empty
    and parse to a number that is not finite, and the handler records a
    transaction of that amount. *)
Lemma rejects_all_but_finite_fails :
  parseFloat "1e400" = Infinity false
  /\ st_transactions
       (handleAddTransaction "x7f2k9q1z" sample_now (sample_state "1e400"))
     = Transaction.mk "x7f2k9q1z" (Infinity false) Misc Cash
         (TimeValue sample_now) "chai"
       :: st_transactions (sample_state "1e400")
  /\ st_transactions
       (handleAddTransaction "x7f2k9q1z" sample_now (sample_state "Infinity"))
     = Transaction.mk "x7f2k9q1z" (Infinity false) Misc Cash
         (TimeValue sample_now) "chai"
       :: st_transactions (sample_state "Infinity")
  /\ ~ rejects_all_but_finite.
Proof.
  assert (P : parseFloat "1e400" = Infinity false) by (vm_compute; reflexivity).
  assert (A : st_transactions
                (handleAddTransaction "x7f2k9q1z" sample_now
                   (sample_state "1e400"))
              = Transaction.mk "x7f2k9q1z" (Infinity false) Misc Cash
                  (TimeValue sample_now) "chai"
                :: st_transactions (sample_state "1e400")).
  { rewrite handleAddTransaction_accepts; cbn [st_newAmount sample_state];
      rewrite P; reflexivity. }
  split; [exact P|]. split; [exact A|]. split.
  - rewrite handleAddTransaction_accepts; reflexivity.
  - intro H.
    specialize (H "x7f2k9q1z"%string sample_now (sample_state "1e400")).
    rewrite A in H.
    assert (N : ~ is_finite (parseFloat (st_newAmount (sample_state "1e400")))).
    { cbn [st_newAmount sample_state]. rewrite P. intros [q Hq].
      discriminate Hq. }
    exact (cons_neq _ _ _ (H (or_intror N))).
Qed.

(** C5, amended.  When the amount text is empty or [parseFloat] finds no
    number at its head ([NaN]), the handler is a silent no-op: the list of
    transactions and the rest of the state are as before.  These are the
    only texts that leave the list as it was: on every other text, those
    that parse to an infinity included, the list changes. *)
Theorem handleAddTransaction_invalid_amount
    (fresh : string) (now : Z) (st : AppState) :
  (st_newAmount st = ""%string \/ parseFloat (st_newAmount st) = NaN ->
   handleAddTransaction fresh now st = st)
  /\ (st_transactions (handleAddTransaction fresh now st) = st_transactions st
      <-> st_newAmount st = ""%string \/ parseFloat (st_newAmount st) = NaN).
Proof.
  assert (R : st_newAmount st = ""%string \/ parseFloat (st_newAmount st) = NaN ->
              handleAddTransaction fresh now st = st).
  { intro H. apply handleAddTransaction_rejects.
    destruct H as [H | H]; rewrite H; reflexivity. }
  split; [exact R|]. split.
  - intro E. right.
    destruct (isNaN (parseFloat (st_newAmount st))) eqn:N.
    + destruct (parseFloat (st_newAmount st)); try discriminate N. reflexivity.
    + rewrite (handleAddTransaction_accepts fresh now st N) in E.
      cbn [st_transactions] in E. now apply cons_neq in E.
  - intro H. now rewrite (R H).
Qed.

Lemma handleAddTransaction_invalid_amount_witness :
  handleAddTransaction "x7f2k9q1z" sample_now (sample_state "abc")
  = sample_state "abc".
Proof.
  apply (proj1 (handleAddTransaction_invalid_amount "x7f2k9q1z" sample_now
                  (sample_state "abc"))).
  right. reflexivity.
Defined.

(** C10.  With an amount text that parses to a number, the handler puts
    the new transaction at the head of the list and keeps the previous
    list, unchanged, as its tail. *)
Theorem handleAddTransaction_prepends
    (fresh : string) (now : Z) (st : AppState) :
  isNaN (parseFloat (st_newAmount st)) = false ->
  st_transactions (handleAddTransaction fresh now st)
  = Transaction.new fresh (parseFloat (st_newAmount st))
      (st_newCategory st) (st_newMethod st) (st_newNote st) (TimeValue now)
    :: st_transactions st
  /\ hd_error (st_transactions (handleAddTransaction fresh now st))
     = Some (Transaction.mk fresh (parseFloat (st_newAmount st))
               (st_newCategory st) (st_newMethod st) (TimeValue now)
               (st_newNote st))
  /\ tl (st_transactions (handleAddTransaction fresh now st))
     = st_transactions st.
Proof.
  intro H. rewrite (handleAddTransaction_accepts fresh now st H).
  repeat split.
Qed.

Lemma handleAddTransaction_prepends_witness :
  st_transactions
    (handleAddTransaction "x7f2k9q1z" sample_now (sample_state "12.50"))
  = Transaction.new "x7f2k9q1z" (parseFloat "12.50") Misc Cash "chai"
      (TimeValue sample_now)
    :: st_transactions (sample_state "12.50")
  /\ hd_error (st_transactions
       (handleAddTransaction "x7f2k9q1z" sample_now (sample_state "12.50")))
     = Some (Transaction.mk "x7f2k9q1z" (parseFloat "12.50") Misc Cash
               (TimeValue sample_now) "chai")
  /\ tl (st_transactions
       (handleAddTransaction "x7f2k9q1z" sample_now (sample_state "12.50")))
     = st_transactions (sample_state "12.50").
Proof.
  apply (handleAddTransaction_prepends "x7f2k9q1z" sample_now
           (sample_state "12.50")).
  reflexivity.
Defined.

(** What [parseFloat] makes of some amount texts.  The last five begin
    with a no-break space (U+00A0), an em space (U+2003), a byte order
    mark (U+FEFF), a line separator (U+2028), which are skipped, and a
    zero-width space (U+200B), which is not white space. *)
Example parseFloat_samples :
  parseFloat "12.50" = num_frac 25 2
  /\ parseFloat "abc" = NaN
  /\ parseFloat "  7" = num 7
  /\ parseFloat "12abc" = num 12
  /\ parseFloat ".5" = num_frac 1 2
  /\ parseFloat "1e3" = num 1000
  /\ parseFloat "-3" = num (-3)
  /\ parseFloat "." = NaN
  /\ parseFloat "-" = NaN
  /\ parseFloat "Infinity" = Infinity false
  /\ parseFloat "-Infinity" = Infinity true
  /\ parseFloat "1e400" = Infinity false
  /\ parseFloat "-1e400" = Infinity true
  /\ parseFloat (utf8_text [194; 160; 53]) = num 5
  /\ parseFloat (utf8_text [226; 128; 131; 53]) = num 5
  /\ parseFloat (utf8_text [239; 187; 191; 32; 53]) = num 5
  /\ parseFloat (utf8_text [226; 128; 168; 53]) = num 5
  /\ parseFloat (utf8_text [226; 128; 139; 53]) = NaN.
Proof.
  repeat split; apply num_eqb_eq; vm_compute; reflexivity.
Qed.

(* ================================================================== *)
(** * Windowed sums *)
(* ================================================================== *)

(** The weekly figures of the component are the windowed operations at
    the bounds of the current week. *)
Lemma weeklySpent_sumInRange (tza : Z) (txs : list Transaction.t) (now : Z) :
  weeklySpent tza txs now
  = sumInRange txs (weekStart tza now) (weekEnd tza now).
Proof. reflexivity. Qed.

Lemma categoryData_sumByCategory (tza : Z) (txs : list Transaction.t) (now : Z) :
  categoryData tza txs now
  = sumByCategory txs (weekStart tza now) (weekEnd tza now).
Proof. reflexivity. Qed.






(* ================================================================== *)
(** * Totals by category *)
(* ================================================================== *)

Lemma category_totals_fold (l : list Transaction.t) :
  category_totals l = fold_left count_step l [].
Proof. reflexivity. Qed.



Lemma counts_set_In (counts : counts_t) (c k : Category) (v : number) :
  In k (map fst (counts_set counts c v)) <-> k = c \/ In k (map fst counts).
Proof.
  induction counts as [|[k' w] rest IH]; simpl.
  - intuition congruence.
  - destruct (Category_eqb k' c) eqn:E; simpl.
    + apply Category_eqb_eq in E. subst k'. intuition congruence.
    + rewrite IH. intuition congruence.
Qed.

Lemma counts_set_NoDup (counts : counts_t) (c : Category) (v : number) :
  NoDup (map fst counts) -> NoDup (map fst (counts_set counts c v)).
Proof.
  induction counts as [|[k w] rest IH]; simpl; intro H.
  - constructor; [intros [] | constructor].
  - inversion H as [|? ? Hk Hrest]; subst.
    destruct (Category_eqb k c) eqn:E; simpl.
    + constructor; assumption.
    + constructor; [|now apply IH].
      rewrite counts_set_In. intros [Ek | Hin]; [|contradiction].
      subst k. now rewrite Category_eqb_refl in E.
Qed.




Lemma fold_count_step_NoDup (l : list Transaction.t) (counts : counts_t) :
  NoDup (map fst counts) -> NoDup (map fst (fold_left count_step l counts)).
Proof.
  revert counts. induction l as [|t l IH]; intros counts H; simpl;
    [exact H|].
  apply IH. now apply counts_set_NoDup.
Qed.


(** The mapping computed on a sample: the two Mess/Food amounts are
    grouped, and the PG/Rent amount lies outside the week. *)
Example sumByCategory_sample :
  map fst (sumByCategory
             [sample_tx "a" 120 Mess_Food sample_now;
              sample_tx "b" 35 Misc sample_now;
              sample_tx "c" 80 Mess_Food sample_now;
              sample_tx "d" 900 PG_Rent 0]
             (weekStart IST sample_now) (weekEnd IST sample_now))
  = [Mess_Food; Misc]
  /\ sum_values (sumByCategory
             [sample_tx "a" 120 Mess_Food sample_now;
              sample_tx "b" 35 Misc sample_now;
              sample_tx "c" 80 Mess_Food sample_now;
              sample_tx "d" 900 PG_Rent 0]
             (weekStart IST sample_now) (weekEnd IST sample_now))
     = num 235.
Proof.
  split; [|apply num_eqb_eq]; vm_compute; reflexivity.
Qed.

(** With amounts that are not finite the totals by category and the
    windowed sum part ways: once a running total is [NaN],
    [(counts[c] || 0)] restarts it from 0, while the [reduce] of the
    windowed sum stays [NaN]. *)
Example category_totals_nonfinite :
  sum_values (category_totals nonfinite_sample) = num 5
  /\ sum_amounts nonfinite_sample = NaN.
Proof.
  split; [apply num_eqb_eq|]; vm_compute; reflexivity.
Qed.

(* ================================================================== *)
(** * The calendar *)
(* ================================================================== *)

Lemma DaysInYear_cases (y : Z) : DaysInYear y = 365 \/ DaysInYear y = 366.
Proof.
  unfold DaysInYear.
  destruct (y mod 4 =? 0), (y mod 100 =? 0), (y mod 400 =? 0); simpl; auto.
Qed.

Lemma DayFromYear_succ (y : Z) :
  DayFromYear (y + 1) = DayFromYear y + DaysInYear y.
Proof.
  unfold DayFromYear, DaysInYear.
  destruct (Z.eqb_spec (y mod 4) 0), (Z.eqb_spec (y mod 100) 0),
    (Z.eqb_spec (y mod 400) 0); cbn [negb];
    Z.to_euclidean_division_equations; lia.
Qed.

(** [YearFromDay d] is the year whose days include [d]. *)
Lemma YearFromDay_spec (d : Z) :
  DayFromYear (YearFromDay d) <= d < DayFromYear (YearFromDay d + 1).
Proof.
  unfold YearFromDay.
  set (y := 1970 + 400 * d / 146097).
  assert (Hy : 146097 * (y - 1970) <= 400 * d < 146097 * (y - 1970) + 146097).
  { subst y. Z.to_euclidean_division_equations. lia. }
  clearbody y.
  pose proof (DayFromYear_succ y) as S1.
  pose proof (DayFromYear_succ (y - 1)) as S0.
  pose proof (DayFromYear_succ (y + 1)) as S2.
  replace (y - 1 + 1) with y in * by lia.
  pose proof (DaysInYear_cases y) as C1.
  pose proof (DaysInYear_cases (y - 1)) as C0.
  pose proof (DaysInYear_cases (y + 1)) as C2.
  assert (B : 400 * DayFromYear y - 146097 * (y - 1970) <= 589
              /\ -506 <= 400 * DayFromYear y - 146097 * (y - 1970)).
  { unfold DayFromYear. Z.to_euclidean_division_equations. lia. }
  destruct (Z.ltb_spec d (DayFromYear y)).
  - replace (y - 1 + 1) with y by lia. lia.
  - destruct (Z.leb_spec (DayFromYear (y + 1)) d); lia.
Qed.

Lemma DayFromYear_approx (y : Z) :
  -506 <= 400 * DayFromYear y - 146097 * (y - 1970) <= 589.
Proof. unfold DayFromYear. Z.to_euclidean_division_equations. lia. Qed.

Lemma InLeapYear_DaysInYear (t : Z) :
  DaysInYear (YearFromTime t) = 365 + InLeapYear t.
Proof.
  unfold InLeapYear.
  destruct (DaysInYear_cases (YearFromTime t)) as [E | E]; rewrite E;
    reflexivity.
Qed.

Lemma InLeapYear_cases (t : Z) : InLeapYear t = 0 \/ InLeapYear t = 1.
Proof. unfold InLeapYear. destruct (_ =? _); auto. Qed.

Lemma DayWithinYear_range (t : Z) :
  0 <= DayWithinYear t < 365 + InLeapYear t.
Proof.
  unfold DayWithinYear. rewrite <- InLeapYear_DaysInYear.
  pose proof (YearFromDay_spec (Day t)) as H.
  rewrite DayFromYear_succ in H. unfold YearFromTime. lia.
Qed.

Lemma month_of_yday_range (d leap : Z) : 0 <= month_of_yday d leap <= 11.
Proof.
  unfold month_of_yday.
  repeat match goal with |- context [if ?b then _ else _] => destruct b end;
    lia.
Qed.

(** Day [d] of a year lies within the month [month_of_yday] assigns to
    it. *)
Lemma month_of_yday_bounds (d leap : Z) :
  (leap = 0 \/ leap = 1) -> 0 <= d < 365 + leap ->
  let m := month_of_yday d leap in
  yday_of_month m leap <= d
  /\ (m < 11 -> d < yday_of_month (m + 1) leap)
  /\ (m = 11 -> d < 365 + leap).
Proof.
  intros Hleap Hd. unfold month_of_yday.
  repeat match goal with
         | |- context [if ?x <? ?y then _ else _] => destruct (Z.ltb_spec x y)
         end; cbv zeta; unfold yday_of_month;
    repeat match goal with
           | |- context [if ?x =? ?y then _ else _] =>
               destruct (Z.eqb_spec x y); try lia
           end.
Qed.

Lemma MonthFromTime_range (t : Z) : 0 <= MonthFromTime t <= 11.
Proof. apply month_of_yday_range. Qed.

(** The calendar fields of an instant make its day number again. *)
Lemma MakeDay_fields (t : Z) :
  MakeDay (YearFromTime t) (MonthFromTime t) (DateFromTime t) = Day t.
Proof.
  pose proof (MonthFromTime_range t) as Hm.
  unfold MakeDay.
  rewrite Z.div_small, Z.mod_small, Z.add_0_r by lia.
  fold (InLeapYear t). unfold DateFromTime, DayWithinYear. lia.
Qed.

Lemma DaysInMonth_eq (y m : Z) :
  0 <= m <= 11 ->
  let leap := if DaysInYear y =? 366 then 1 else 0 in
  DaysInMonth y m
  = if m =? 11 then 31 else yday_of_month (m + 1) leap - yday_of_month m leap.
Proof.
  intros Hm leap. unfold DaysInMonth, MakeDay.
  destruct (Z.eqb_spec m 11) as [-> | Hne].
  - change ((11 + 1) / 12) with 1. change ((11 + 1) mod 12) with 0.
    change (11 / 12) with 0. change (11 mod 12) with 11.
    rewrite !Z.add_0_r, DayFromYear_succ. fold leap.
    change (yday_of_month 0 (if DaysInYear (y + 1) =? 366 then 1 else 0))
      with 0.
    change (yday_of_month 11 leap) with (334 + leap).
    subst leap. destruct (DaysInYear_cases y) as [E | E]; rewrite E;
      cbn [Z.eqb Pos.eqb]; lia.
  - rewrite !Z.div_small, !Z.mod_small, Z.add_0_r by lia.
    fold leap. lia.
Qed.

Lemma DateFromTime_range (t : Z) :
  1 <= DateFromTime t <= DaysInMonth (YearFromTime t) (MonthFromTime t).
Proof.
  pose proof (MonthFromTime_range t) as Hm.
  pose proof (month_of_yday_bounds (DayWithinYear t) (InLeapYear t)
                (InLeapYear_cases t) (DayWithinYear_range t)) as H.
  cbv zeta in H. fold (MonthFromTime t) in H.
  destruct H as (Hlo & Hmid & Hhi).
  rewrite (DaysInMonth_eq _ _ Hm). cbv zeta. fold (InLeapYear t).
  unfold DateFromTime.
  destruct (Z.eqb_spec (MonthFromTime t) 11) as [E | Hne].
  - specialize (Hhi E). rewrite E in Hlo |- *.
    change (yday_of_month 11 (InLeapYear t)) with (334 + InLeapYear t) in *.
    lia.
  - assert (Hlt : MonthFromTime t < 11) by lia. specialize (Hmid Hlt). lia.
Qed.

Lemma time_fields_range (t : Z) :
  0 <= HourFromTime t <= 23 /\ 0 <= MinFromTime t <= 59
  /\ 0 <= SecFromTime t <= 59 /\ 0 <= msFromTime t <= 999.
Proof.
  unfold HourFromTime, MinFromTime, SecFromTime, msFromTime,
    msPerHour, msPerMinute, msPerSecond.
  Z.to_euclidean_division_equations. lia.
Qed.

Lemma MakeTime_fields (t : Z) :
  MakeTime (HourFromTime t) (MinFromTime t) (SecFromTime t) (msFromTime t)
  = TimeWithinDay t.
Proof.
  unfold MakeTime, HourFromTime, MinFromTime, SecFromTime, msFromTime,
    TimeWithinDay, msPerHour, msPerMinute, msPerSecond, msPerDay.
  Z.to_euclidean_division_equations. lia.
Qed.

Lemma MakeDate_fields (t : Z) : MakeDate (Day t) (TimeWithinDay t) = t.
Proof.
  unfold MakeDate, Day, TimeWithinDay.
  pose proof (Z.div_mod t msPerDay ltac:(discriminate)). lia.
Qed.

(** The years of the instants a date can hold. *)
Lemma YearFromTime_range (t : Z) :
  valid_time t -> -271821 <= YearFromTime t <= 275760.
Proof.
  unfold valid_time, maxTime. intro Ht.
  assert (Hd : -100000000 <= Day t <= 100000000).
  { unfold Day, msPerDay. Z.to_euclidean_division_equations. lia. }
  pose proof (YearFromDay_spec (Day t)) as H.
  fold (YearFromTime t) in H.
  pose proof (DayFromYear_approx (YearFromTime t)).
  pose proof (DayFromYear_approx (YearFromTime t + 1)).
  lia.
Qed.

Lemma TimeClip_valid (t : Z) : valid_time t -> TimeClip t = TimeValue t.
Proof.
  unfold valid_time, TimeClip. intro H.
  destruct (Z.ltb_spec maxTime (Z.abs t)); [lia | reflexivity].
Qed.

(* ================================================================== *)
(** * Writing and reading ISO-8601 strings *)
(* ================================================================== *)

Lemma digit_cases (d : Z) :
  0 <= d <= 9 ->
  d = 0 \/ d = 1 \/ d = 2 \/ d = 3 \/ d = 4 \/ d = 5 \/ d = 6 \/ d = 7
  \/ d = 8 \/ d = 9.
Proof. lia. Qed.

Lemma digit_value_char (d : Z) :
  0 <= d <= 9 -> digit_value (digit_char d) = Some d.
Proof.
  intro H. destruct (digit_cases d H) as [E | H'];
    [| repeat (destruct H' as [E | H']; [subst d; reflexivity|])];
    subst d; reflexivity.
Qed.

Lemma digit_char_not_sign (d : Z) :
  0 <= d <= 9 ->
  Ascii.eqb (digit_char d) "+" = false /\ Ascii.eqb (digit_char d) "-" = false.
Proof.
  intro H. destruct (digit_cases d H) as [E | H'];
    [| repeat (destruct H' as [E | H']; [subst d; split; reflexivity|])];
    subst d; split; reflexivity.
Qed.

Lemma pow10_pos (w : nat) : 0 < 10 ^ Z.of_nat w.
Proof. apply Z.pow_pos_nonneg; lia. Qed.

Lemma pow10_succ (w : nat) : 10 ^ Z.of_nat (S w) = 10 * 10 ^ Z.of_nat w.
Proof. rewrite Nat2Z.inj_succ, Z.pow_succ_r by lia. reflexivity. Qed.

Lemma leading_digit_range (w : nat) (n : Z) :
  0 <= n < 10 ^ Z.of_nat (S w) ->
  0 <= n / 10 ^ Z.of_nat w <= 9
  /\ 0 <= n mod 10 ^ Z.of_nat w < 10 ^ Z.of_nat w.
Proof.
  rewrite pow10_succ. intro H. pose proof (pow10_pos w) as P.
  split.
  - split; [apply Z.div_pos; lia|].
    assert (n / 10 ^ Z.of_nat w < 10); [|lia].
    apply Z.div_lt_upper_bound; lia.
  - apply Z.mod_pos_bound. exact P.
Qed.

(** Reading [w] digits gives back the number that was written with [w]
    digits. *)
Lemma read_digits_pad (w : nat) (n acc : Z) (rest : list ascii) :
  0 <= n < 10 ^ Z.of_nat w ->
  read_digits w acc (pad_digits w n ++ rest)
  = Some (acc * 10 ^ Z.of_nat w + n, rest).
Proof.
  revert n acc. induction w as [|w IH]; intros n acc H.
  - simpl in *. f_equal. f_equal. lia.
  - destruct (leading_digit_range w n H) as [Hd Hr].
    cbn [pad_digits read_digits app].
    rewrite (digit_value_char _ Hd), (IH _ _ Hr).
    f_equal. f_equal. rewrite pow10_succ.
    pose proof (Z.div_mod n (10 ^ Z.of_nat w)) as D.
    pose proof (pow10_pos w). lia.
Qed.

Lemma read_year_format (y : Z) (rest : list ascii) :
  -999999 <= y <= 999999 ->
  read_year (format_year y ++ rest) = Some (y, rest).
Proof.
  intro H. unfold format_year.
  destruct (Z.leb_spec 0 y); [destruct (Z.leb_spec y 9999)|]; cbn [andb].
  - destruct (leading_digit_range 3 y ltac:(simpl; lia)) as [Hd _].
    destruct (digit_char_not_sign _ Hd) as [Np Nm].
    change (pad_digits 4 y) with
      (digit_char (y / 10 ^ Z.of_nat 3) :: pad_digits 3 (y mod 10 ^ Z.of_nat 3)).
    cbn [app read_year].
    rewrite Np, Nm.
    change (digit_char (y / 10 ^ Z.of_nat 3)
            :: pad_digits 3 (y mod 10 ^ Z.of_nat 3) ++ rest)
      with (pad_digits 4 y ++ rest).
    rewrite read_digits_pad by (simpl; lia). f_equal.
  - destruct (Z.ltb_spec y 0); [lia|].
    cbn [app read_year]. cbn [Ascii.eqb Bool.eqb].
    rewrite read_digits_pad by (simpl; lia). f_equal.
  - destruct (Z.ltb_spec y 0); [|lia].
    cbn [app read_year]. cbn [Ascii.eqb Bool.eqb].
    rewrite read_digits_pad by (simpl; lia).
    cbn [Z.mul Z.add].
    destruct (Z.eqb_spec (- y) 0); [lia|].
    f_equal. f_equal. lia.
Qed.

Lemma DaysInMonth_le_31 (y m : Z) : 0 <= m <= 11 -> DaysInMonth y m <= 31.
Proof.
  intro H. rewrite DaysInMonth_eq by exact H. cbv zeta.
  set (leap := if DaysInYear y =? 366 then 1 else 0).
  assert (L : leap = 0 \/ leap = 1) by (subst leap; destruct (_ =? _); auto).
  clearbody leap.
  assert (C : m = 0 \/ m = 1 \/ m = 2 \/ m = 3 \/ m = 4 \/ m = 5 \/ m = 6
              \/ m = 7 \/ m = 8 \/ m = 9 \/ m = 10 \/ m = 11) by lia.
  repeat (destruct C as [C | C];
          [subst m; destruct L; subst leap; vm_compute; discriminate|]).
  subst m; destruct L; subst leap; vm_compute; discriminate.
Qed.

Lemma expect_cons (c : ascii) (s : list ascii) : expect c (c :: s) = Some s.
Proof. simpl. now rewrite Ascii.eqb_refl. Qed.

(** Reading the string written for an instant gives the instant. *)
Lemma parse_iso_format (t : Z) :
  valid_time t ->
  parse_iso
    (format_year (YearFromTime t)
     ++ "-"%char :: pad_digits 2 (MonthFromTime t + 1)
     ++ "-"%char :: pad_digits 2 (DateFromTime t)
     ++ "T"%char :: pad_digits 2 (HourFromTime t)
     ++ ":"%char :: pad_digits 2 (MinFromTime t)
     ++ ":"%char :: pad_digits 2 (SecFromTime t)
     ++ "."%char :: pad_digits 3 (msFromTime t)
     ++ ["Z"%char])
  = Some t.
Proof.
  intro Ht.
  pose proof (YearFromTime_range t Ht) as Hy.
  pose proof (MonthFromTime_range t) as Hm.
  pose proof (DateFromTime_range t) as Hd.
  pose proof (time_fields_range t) as (Hh & Hmi & Hs & Hms).
  pose proof (DaysInMonth_le_31 (YearFromTime t) _ Hm) as Hd31.
  unfold parse_iso.
  rewrite read_year_format by lia.
  rewrite expect_cons, read_digits_pad by (simpl; lia).
  rewrite expect_cons, read_digits_pad by (simpl; lia).
  rewrite expect_cons, read_digits_pad by (simpl; lia).
  rewrite expect_cons, read_digits_pad by (simpl; lia).
  rewrite expect_cons, read_digits_pad by (simpl; lia).
  rewrite expect_cons, read_digits_pad by (simpl; lia).
  rewrite expect_cons.
  cbn [Z.mul Z.add].
  replace (MonthFromTime t + 1 - 1) with (MonthFromTime t) by lia.
  rewrite MakeDay_fields, MakeTime_fields, MakeDate_fields.
  replace (1 <=? MonthFromTime t + 1) with true by (symmetry; apply Z.leb_le; lia).
  replace (MonthFromTime t + 1 <=? 12) with true by (symmetry; apply Z.leb_le; lia).
  replace (1 <=? DateFromTime t) with true by (symmetry; apply Z.leb_le; lia).
  replace (DateFromTime t <=? DaysInMonth (YearFromTime t) (MonthFromTime t))
    with true by (symmetry; apply Z.leb_le; lia).
  replace (HourFromTime t <=? 23) with true by (symmetry; apply Z.leb_le; lia).
  replace (MinFromTime t <=? 59) with true by (symmetry; apply Z.leb_le; lia).
  replace (SecFromTime t <=? 59) with true by (symmetry; apply Z.leb_le; lia).
  reflexivity.
Qed.

(** [new Date(d.toISOString())] holds the instant of [d]. *)
Lemma Date_of_string_toISOString (d : Date) :
  valid_Date d ->
  exists iso, toISOString d = Some iso /\ Date_of_string iso = d.
Proof.
  destruct d as [|t]; intro H; [contradiction|].
  cbn [valid_Date] in H. unfold toISOString.
  eexists. split; [reflexivity|].
  unfold Date_of_string.
  rewrite list_ascii_of_string_of_list_ascii, (parse_iso_format t H).
  now apply TimeClip_valid.
Qed.

(* ================================================================== *)
(** * Serialization of transactions *)
(* ================================================================== *)

(** C3.  Serializing a transaction dated at an instant with [toJSON],
    which writes the date as an ISO-8601 string, and reading the record
    with [fromJSON] gives a transaction equal to the original in every
    field; its identifier is the one of the original, not the one the
    constructor draws. *)
Theorem toJSON_fromJSON_roundtrip (fresh : string) (t : Transaction.t) :
  valid_Date (Transaction.date t) ->
  exists json,
    Transaction.toJSON t = Some json
    /\ toISOString (Transaction.date t) = Some (TransactionJSON.date json)
    /\ Transaction.fromJSON fresh json = t
    /\ Transaction.id (Transaction.fromJSON fresh json) = Transaction.id t.
Proof.
  intro Hd.
  destruct (Date_of_string_toISOString _ Hd) as (iso & Hiso & Hback).
  unfold Transaction.toJSON. rewrite Hiso.
  eexists. split; [reflexivity|]. split; [reflexivity|].
  assert (E : Transaction.fromJSON fresh
                {| TransactionJSON.id := Transaction.id t;
                   TransactionJSON.amount := Transaction.amount t;
                   TransactionJSON.category := Transaction.category t;
                   TransactionJSON.method := Transaction.method t;
                   TransactionJSON.date := iso;
                   TransactionJSON.note := Transaction.note t |} = t).
  { unfold Transaction.fromJSON, Transaction.new, Transaction.set_id.
    cbn [TransactionJSON.id TransactionJSON.amount TransactionJSON.category
         TransactionJSON.method TransactionJSON.date TransactionJSON.note
         Transaction.id Transaction.amount Transaction.category
         Transaction.method Transaction.date Transaction.note].
    rewrite Hback. destruct t; reflexivity. }
  split; [exact E | now rewrite E].
Qed.

Lemma sample_now_valid : valid_time sample_now.
Proof. unfold valid_time, maxTime, sample_now. lia. Qed.

Lemma toJSON_fromJSON_roundtrip_witness :
  exists json,
    Transaction.toJSON (sample_tx "k3j9x0a1b" 40 Mess_Food sample_now)
    = Some json
    /\ toISOString (TimeValue sample_now) = Some (TransactionJSON.date json)
    /\ Transaction.fromJSON "zzzzzzzzz" json
       = sample_tx "k3j9x0a1b" 40 Mess_Food sample_now
    /\ Transaction.id (Transaction.fromJSON "zzzzzzzzz" json)
       = "k3j9x0a1b"%string.
Proof.
  apply (toJSON_fromJSON_roundtrip "zzzzzzzzz"
           (sample_tx "k3j9x0a1b" 40 Mess_Food sample_now)).
  exact sample_now_valid.
Defined.

(** The record written for the sample transaction, and its date read
    back. *)
Example toJSON_sample :
  Transaction.toJSON (sample_tx "k3j9x0a1b" 40 Mess_Food sample_now)
  = Some {| TransactionJSON.id := "k3j9x0a1b";
            TransactionJSON.amount := num 40;
            TransactionJSON.category := Mess_Food;
            TransactionJSON.method := UPI;
            TransactionJSON.date := "2026-11-01T23:00:00.123Z";
            TransactionJSON.note := "" |}
  /\ Date_of_string "2026-11-01T23:00:00.123Z" = TimeValue sample_now.
Proof. split; vm_compute; reflexivity. Qed.

(** [toJSON] throws on a transaction whose date is invalid. *)
Example toJSON_invalid_date :
  Transaction.toJSON (Transaction.mk "a" (num 1) Misc UPI InvalidDate "") = None.
Proof. reflexivity. Qed.

(* ================================================================== *)
(** * Monthly spend *)
(* ================================================================== *)

(** The monthly figure of the component bounds the dates from below
    only. *)
Lemma monthlySpent_from_month_start (tza : Z) (txs : list Transaction.t)
    (now : Z) :
  monthlySpent tza txs now
  = total_amount
      (filter (fun t => Date_ge (Transaction.date t)
                          (startOfMonth tza (TimeValue now))) txs).
Proof. unfold monthlySpent. apply sum_amounts_total. Qed.

(** When no transaction is dated after the end of the month, the figure
    is the sum over the month window. *)
Lemma monthlySpent_month_window (tza : Z) (txs : list Transaction.t)
    (now : Z) :
  (forall t, In t txs ->
             Date_le (Transaction.date t) (endOfMonth tza (TimeValue now)) = true) ->
  monthlySpent tza txs now = month_window_total tza txs now.
Proof.
  intro H. unfold monthlySpent, month_window_total, sumInRange, today.
  f_equal. apply filter_ext_in. intros t Ht. unfold in_window.
  now rewrite (H t Ht), Bool.andb_true_r.
Qed.

(** C4 (evaluation at the failing input).  With the clock at
    2026-11-02 and one transaction of 500 dated 2026-12-05, after the end
    of November, the monthly figure of the component is 500, while the
    sum over the month window, from the 1st at 00:00:00 to the last day
    at 23:59:59, is 0. *)
Theorem monthlySpent_counts_later_months :
  let txs := [sample_tx "n" 500 Misc sample_next_month] in
  startOfMonth IST (TimeValue sample_now) = TimeValue 1793471400000
  /\ endOfMonth IST (TimeValue sample_now) = TimeValue 1796063399999
  /\ Date_le (TimeValue sample_next_month)
             (endOfMonth IST (TimeValue sample_now)) = false
  /\ monthlySpent IST txs sample_now = num 500
  /\ month_window_total IST txs sample_now = num 0.
Proof.
  cbv zeta. repeat split;
    try (apply num_eqb_eq; vm_compute; reflexivity);
    vm_compute; reflexivity.
Qed.

(* ================================================================== *)
(** * The week window *)
(* ================================================================== *)

Lemma MakeDay_shift (y m d k : Z) : MakeDay y m (d + k) = MakeDay y m d + k.
Proof. unfold MakeDay. lia. Qed.

Lemma WeekDay_range (t : Z) : 0 <= WeekDay t <= 6.
Proof. unfold WeekDay. pose proof (Z.mod_pos_bound (Day t + 4) 7). lia. Qed.

Lemma Day_shift (t k : Z) : Day (t + k * msPerDay) = Day t + k.
Proof. unfold Day. apply Z.div_add. discriminate. Qed.

Lemma Day_bounds (t : Z) : Day t * msPerDay <= t < Day t * msPerDay + msPerDay.
Proof.
  unfold Day, msPerDay. Z.to_euclidean_division_equations. lia.
Qed.

Lemma days_since_monday_range (l : Z) : 0 <= days_since_monday l <= 6.
Proof.
  unfold days_since_monday. pose proof (Z.mod_pos_bound (WeekDay l + 6) 7). lia.
Qed.

(** [setDate] moves the instant by whole days. *)
Lemma setDate_value (tza t dt : Z) :
  setDate tza (TimeValue t) dt = TimeClip (t + (dt - getDate tza t) * msPerDay).
Proof.
  unfold setDate, getDate, LocalTime, UTC. f_equal.
  assert (E : MakeDay (YearFromTime (t + tza)) (MonthFromTime (t + tza)) dt
              = Day (t + tza) + (dt - DateFromTime (t + tza))).
  { rewrite <- MakeDay_fields, <- MakeDay_shift. f_equal. lia. }
  rewrite E. clear E.
  pose proof (MakeDate_fields (t + tza)) as E.
  unfold MakeDate in *.
  generalize dependent (Day (t + tza)).
  generalize (TimeWithinDay (t + tza)), (DateFromTime (t + tza)).
  intros. lia.
Qed.

Lemma setHours_value (tza t h m s ms : Z) :
  setHours tza (TimeValue t) h m s ms
  = TimeClip (Day (t + tza) * msPerDay + MakeTime h m s ms - tza).
Proof. reflexivity. Qed.

Lemma startOfWeek_diff (wd : Z) :
  0 <= wd <= 6 -> (if wd <? 1 then 7 else 0) + wd - 1 = (wd + 6) mod 7.
Proof.
  intro H. destruct (Z.ltb_spec wd 1); Z.to_euclidean_division_equations; lia.
Qed.

Lemma endOfWeek_diff (wd : Z) :
  0 <= wd <= 6 ->
  (if wd <? 1 then -7 else 0) + 6 - (wd - 1) = 6 - (wd + 6) mod 7.
Proof.
  intro H. destruct (Z.ltb_spec wd 1); Z.to_euclidean_division_equations; lia.
Qed.

(** [startOfWeek] with the week starting on Monday is the local midnight
    of the Monday on or before the date. *)
Lemma startOfWeek_monday (tza t : Z) :
  week_margin t ->
  startOfWeek tza (TimeValue t) 1 = TimeValue (monday_midnight tza t).
Proof.
  unfold week_margin, maxTime, msPerDay. intro Hm.
  unfold startOfWeek, getDay, LocalTime.
  rewrite (startOfWeek_diff _ (WeekDay_range (t + tza))).
  fold (days_since_monday (t + tza)).
  pose proof (days_since_monday_range (t + tza)) as Hd.
  rewrite setDate_value.
  replace (getDate tza t - days_since_monday (t + tza) - getDate tza t)
    with (- days_since_monday (t + tza)) by lia.
  rewrite TimeClip_valid
    by (unfold valid_time, maxTime, msPerDay; lia).
  rewrite setHours_value.
  replace (t + - days_since_monday (t + tza) * msPerDay + tza)
    with (t + tza + - days_since_monday (t + tza) * msPerDay) by lia.
  rewrite Day_shift. change (MakeTime 0 0 0 0) with 0.
  pose proof (Day_bounds (t + tza)) as Hb. unfold msPerDay in Hb.
  rewrite TimeClip_valid
    by (unfold valid_time, maxTime, msPerDay; lia).
  f_equal. unfold monday_midnight. lia.
Qed.

(** [endOfWeek] is the last millisecond of the Sunday that ends the same
    week. *)
Lemma endOfWeek_sunday (tza t : Z) :
  week_margin t ->
  endOfWeek tza (TimeValue t) 1
  = TimeValue (monday_midnight tza t + 7 * msPerDay - 1).
Proof.
  unfold week_margin, maxTime, msPerDay. intro Hm.
  unfold endOfWeek, getDay, LocalTime.
  rewrite (endOfWeek_diff _ (WeekDay_range (t + tza))).
  fold (days_since_monday (t + tza)).
  pose proof (days_since_monday_range (t + tza)) as Hd.
  rewrite setDate_value.
  replace (getDate tza t + (6 - days_since_monday (t + tza)) - getDate tza t)
    with (6 - days_since_monday (t + tza)) by lia.
  rewrite TimeClip_valid
    by (unfold valid_time, maxTime, msPerDay; lia).
  rewrite setHours_value.
  replace (t + (6 - days_since_monday (t + tza)) * msPerDay + tza)
    with (t + tza + (6 - days_since_monday (t + tza)) * msPerDay) by lia.
  rewrite Day_shift. change (MakeTime 23 59 59 999) with 86399999.
  pose proof (Day_bounds (t + tza)) as Hb. unfold msPerDay in Hb.
  rewrite TimeClip_valid
    by (unfold valid_time, maxTime, msPerDay; lia).
  f_equal. unfold monday_midnight, msPerDay. lia.
Qed.

(** The window of the component is the week, Monday 00:00:00.000 to
    Sunday 23:59:59.999 local time, that contains the clock reading, and
    the number of days left in it, today included, is between 1 and 7:
    the guard [Math.max(1, daysLeft)] never changes it. *)
Lemma week_window (tza now : Z) :
  week_margin now ->
  weekStart tza now = TimeValue (monday_midnight tza now)
  /\ weekEnd tza now = TimeValue (monday_midnight tza now + 7 * msPerDay - 1)
  /\ monday_midnight tza now <= now <= monday_midnight tza now + 7 * msPerDay - 1
  /\ WeekDay (monday_midnight tza now + tza) = 1
  /\ TimeWithinDay (monday_midnight tza now + tza) = 0
  /\ daysLeftInWeek tza now = num (7 - days_since_monday (now + tza))
  /\ Math_max (num 1) (daysLeftInWeek tza now) = daysLeftInWeek tza now.
Proof.
  intro Hm. unfold weekStart, weekEnd, daysLeftInWeek, weekEnd, today.
  rewrite (startOfWeek_monday tza now Hm), (endOfWeek_sunday tza now Hm).
  pose proof (days_since_monday_range (now + tza)) as Hd.
  pose proof (Day_bounds (now + tza)) as Hb.
  assert (Hin : monday_midnight tza now <= now
                <= monday_midnight tza now + 7 * msPerDay - 1).
  { unfold monday_midnight, msPerDay in *. lia. }
  assert (Hq : Z.quot (monday_midnight tza now + 7 * msPerDay - 1 - now) msPerDay
               = 6 - days_since_monday (now + tza)).
  { rewrite Z.quot_div_nonneg by (unfold msPerDay in *; lia).
    symmetry. apply Z.div_unique with
      (r := Day (now + tza) * msPerDay + msPerDay - 1 - (now + tza)).
    - left. unfold msPerDay in *. lia.
    - unfold monday_midnight, msPerDay. lia. }
  assert (Hdays : num_add (differenceInDays (TimeValue (monday_midnight tza now + 7 * msPerDay - 1))
                             (TimeValue now)) (num 1)
                  = num (7 - days_since_monday (now + tza))).
  { unfold differenceInDays. rewrite Hq.
    assert (C : days_since_monday (now + tza) = 0 \/ days_since_monday (now + tza) = 1
                \/ days_since_monday (now + tza) = 2 \/ days_since_monday (now + tza) = 3
                \/ days_since_monday (now + tza) = 4 \/ days_since_monday (now + tza) = 5
                \/ days_since_monday (now + tza) = 6) by lia.
    repeat (destruct C as [C | C];
            [rewrite C; apply num_eqb_eq; vm_compute; reflexivity|]).
    rewrite C; apply num_eqb_eq; vm_compute; reflexivity. }
  repeat split; try (apply Hin).
  - unfold monday_midnight.
    replace ((Day (now + tza) - days_since_monday (now + tza)) * msPerDay - tza + tza)
      with (0 + (Day (now + tza) - days_since_monday (now + tza)) * msPerDay) by lia.
    unfold WeekDay. rewrite Day_shift. change (Day 0) with 0.
    unfold days_since_monday, WeekDay.
    Z.to_euclidean_division_equations. lia.
  - unfold monday_midnight, TimeWithinDay.
    replace ((Day (now + tza) - days_since_monday (now + tza)) * msPerDay - tza + tza)
      with ((Day (now + tza) - days_since_monday (now + tza)) * msPerDay) by lia.
    apply Z.mod_mul. discriminate.
  - exact Hdays.
  - rewrite Hdays.
    assert (C : days_since_monday (now + tza) = 0 \/ days_since_monday (now + tza) = 1
                \/ days_since_monday (now + tza) = 2 \/ days_since_monday (now + tza) = 3
                \/ days_since_monday (now + tza) = 4 \/ days_since_monday (now + tza) = 5
                \/ days_since_monday (now + tza) = 6) by lia.
    repeat (destruct C as [C | C];
            [rewrite C; apply num_eqb_eq; vm_compute; reflexivity|]).
    rewrite C; apply num_eqb_eq; vm_compute; reflexivity.
Qed.

(* ================================================================== *)
(** * The month window *)
(* ================================================================== *)

(** [startOfMonth] is the local midnight of the first day of the
    month. *)
Lemma startOfMonth_first (tza t : Z) :
  month_margin t ->
  startOfMonth tza (TimeValue t) = TimeValue (first_midnight tza t).
Proof.
  unfold month_margin, maxTime, msPerDay. intro Hm.
  pose proof (DateFromTime_range (t + tza)) as Hd.
  pose proof (DaysInMonth_le_31 (YearFromTime (t + tza)) _
                (MonthFromTime_range (t + tza))) as H31.
  unfold startOfMonth. rewrite setDate_value. unfold getDate, LocalTime.
  rewrite TimeClip_valid by (unfold valid_time, maxTime, msPerDay; lia).
  rewrite setHours_value.
  replace (t + (1 - DateFromTime (t + tza)) * msPerDay + tza)
    with (t + tza + (1 - DateFromTime (t + tza)) * msPerDay) by lia.
  rewrite Day_shift. change (MakeTime 0 0 0 0) with 0.
  pose proof (Day_bounds (t + tza)) as Hb. unfold msPerDay in Hb.
  rewrite TimeClip_valid by (unfold valid_time, maxTime, msPerDay; lia).
  f_equal. unfold first_midnight. lia.
Qed.

(** [endOfMonth] is the last millisecond of the last day of the
    month. *)
Lemma endOfMonth_last (tza t : Z) :
  month_margin t ->
  endOfMonth tza (TimeValue t)
  = TimeValue (first_midnight tza t
               + DaysInMonth (YearFromTime (t + tza)) (MonthFromTime (t + tza))
                 * msPerDay - 1).
Proof.
  unfold month_margin, maxTime, msPerDay. intro Hm.
  pose proof (DateFromTime_range (t + tza)) as Hd.
  pose proof (DaysInMonth_le_31 (YearFromTime (t + tza)) _
                (MonthFromTime_range (t + tza))) as H31.
  pose proof (Day_bounds (t + tza)) as Hb. unfold msPerDay in Hb.
  pose proof (MakeDate_fields (t + tza)) as Hf. unfold MakeDate, msPerDay in Hf.
  unfold endOfMonth, setFullYear, getFullYear, getMonth, LocalTime, UTC.
  set (Y := YearFromTime (t + tza)) in *.
  set (M := MonthFromTime (t + tza)) in *.
  assert (E : MakeDay Y (M + 1) 0
              = Day (t + tza) - DateFromTime (t + tza) + DaysInMonth Y M).
  { assert (A1 : MakeDay Y (M + 1) 0 = MakeDay Y (M + 1) 1 - 1)
      by (unfold MakeDay; lia).
    assert (A2 : MakeDay Y M 1
                 = MakeDay Y M (DateFromTime (t + tza))
                   - (DateFromTime (t + tza) - 1))
      by (unfold MakeDay; lia).
    pose proof (MakeDay_fields (t + tza)) as A3. fold Y M in A3.
    unfold DaysInMonth. lia. }
  rewrite E. clear E.
  set (D := DateFromTime (t + tza)) in *.
  set (N := DaysInMonth Y M) in *.
  assert (E2 : MakeDate (Day (t + tza) - D + N) (TimeWithinDay (t + tza)) - tza
               = t + (N - D) * msPerDay).
  { unfold MakeDate, msPerDay. lia. }
  rewrite E2, TimeClip_valid by (unfold valid_time, maxTime, msPerDay; lia).
  rewrite setHours_value.
  replace (t + (N - D) * msPerDay + tza)
    with (t + tza + (N - D) * msPerDay) by lia.
  rewrite Day_shift. change (MakeTime 23 59 59 999) with 86399999.
  rewrite TimeClip_valid by (unfold valid_time, maxTime, msPerDay; lia).
  f_equal. unfold first_midnight, msPerDay. fold D. lia.
Qed.

(** The month window lies around the clock reading, and a transaction
    dated after its end is counted by the monthly figure of the
    component. *)
Lemma monthlySpent_after_month_end (tza now : Z) (t : Transaction.t) :
  month_margin now ->
  Date_le (Transaction.date t) (endOfMonth tza (TimeValue now)) = false ->
  has_instant t ->
  monthlySpent tza [t] now = Transaction.amount t
  /\ month_window_total tza [t] now = num 0.
Proof.
  intros Hm Hafter Hi.
  pose proof (startOfMonth_first tza now Hm) as Es.
  pose proof (endOfMonth_last tza now Hm) as Ee.
  pose proof (DateFromTime_range (now + tza)) as Hd.
  pose proof (Day_bounds (now + tza)) as Hb.
  unfold monthlySpent, month_window_total, sumInRange, today.
  cbn [filter]. unfold in_window. rewrite Hafter, Bool.andb_false_r.
  rewrite Es. rewrite Ee in Hafter.
  unfold has_instant in Hi.
  destruct (Transaction.date t) as [|d]; [congruence|].
  cbn [Date_ge Date_le] in *.
  apply Z.leb_gt in Hafter.
  replace (first_midnight tza now <=? d) with true.
  - split; [|reflexivity]. unfold sum_amounts. cbn [fold_left].
    apply num_add_0_l.
  - symmetry. apply Z.leb_le. unfold first_midnight, msPerDay in *. lia.
Qed.

Lemma month_margin_week (t : Z) : month_margin t -> week_margin t.
Proof. unfold month_margin, week_margin, maxTime, msPerDay. lia. Qed.

Lemma sample_now_margin : month_margin sample_now.
Proof. unfold month_margin, maxTime, msPerDay, sample_now. lia. Qed.

(* ================================================================== *)
(** * Properties of the binary64 operations *)
(* ================================================================== *)

(** The binary64 numbers of the samples, written in hexadecimal in the
    definitions, are those that the decimal literals denote. *)
Set Warnings "-inexact-float".
Example binary64_literals :
  B64.literal_0_15 = 0.15%float
  /\ map B64.Transaction.amount B64.rounding_sample
     = [0.1; 0.1; 0.65]%float
  /\ map B64.Transaction.amount B64.threshold_sample
     = [598.48; 1.44; 0.08]%float
  /\ 0x1.b333333333333p-1%float = 0.85%float
  /\ 0x1.b333333333334p-1%float = 0.8500000000000001%float
  /\ 0x1.2c00000000001p+9%float = 600.0000000000001%float.
Proof. repeat split. Qed.
Set Warnings "inexact-float".

Lemma SFcompare_refl (s : spec_float) :
  SFcompare s s = None \/ SFcompare s s = Some Eq.
Proof.
  destruct s as [s|s| |s m e]; simpl; auto; destruct s; auto;
    rewrite Z.compare_refl, Pos.compare_cont_refl; auto.
Qed.

(** No number is below itself. *)
Lemma ltb_irrefl (x : float) : (x <? x)%float = false.
Proof.
  rewrite ltb_spec. unfold SFltb.
  destruct (SFcompare_refl (Prim2SF x)) as [E | E]; now rewrite E.
Qed.

Lemma SFcompare_antisym (x y : spec_float) :
  SFcompare y x = option_map CompOpp (SFcompare x y).
Proof.
  destruct x as [s|s| |s m e], y as [s'|s'| |s' m' e']; simpl;
    try destruct s; try destruct s'; try reflexivity.
  - rewrite (Z.compare_antisym e e'). destruct (e ?= e'); simpl; try reflexivity.
    f_equal. f_equal. symmetry. exact (Pos.compare_cont_antisym m m' Eq).
  - rewrite (Z.compare_antisym e e'). destruct (e ?= e'); simpl; try reflexivity.
    f_equal. symmetry. exact (Pos.compare_cont_antisym m m' Eq).
Qed.

Lemma is_nan_spec (x : float) :
  PrimFloat.is_nan x = true <-> Prim2SF x = S754_nan.
Proof.
  unfold PrimFloat.is_nan. rewrite eqb_spec. unfold SFeqb.
  destruct (Prim2SF x) as [s|s| |s m e]; simpl; try (destruct s; simpl);
    try rewrite Z.compare_refl, Pos.compare_cont_refl; simpl;
    split; try discriminate; reflexivity.
Qed.

(** [Math.max(x, y)] is [y] when [x < y]. *)
Lemma Math_max_lt (x y : float) :
  (x <? y)%float = true -> B64.Math_max x y = y.
Proof.
  unfold B64.Math_max. rewrite ltb_spec, compare_spec. unfold SFltb.
  destruct (SFcompare (Prim2SF x) (Prim2SF y)) as [[| |]|]; simpl;
    try discriminate; reflexivity.
Qed.

(** [Math.max(x, y)] is [x] when [y <= x], for an [x] other than the
    negative zero. *)
Lemma Math_max_ge (x y : float) :
  (y <=? x)%float = true -> PrimFloat.classify x <> NZero ->
  B64.Math_max x y = x.
Proof.
  unfold B64.Math_max. rewrite leb_spec, compare_spec. unfold SFleb.
  rewrite (SFcompare_antisym (Prim2SF x) (Prim2SF y)).
  destruct (SFcompare (Prim2SF x) (Prim2SF y)) as [[| |]|]; simpl;
    try discriminate; try reflexivity.
  intros _ H. destruct (classify x); try reflexivity. now elim H.
Qed.

(** [Math.max(x, y)] is [NaN] exactly when an argument is. *)
Lemma Math_max_nan (x y : float) :
  PrimFloat.is_nan (B64.Math_max x y) = true
  <-> PrimFloat.is_nan x = true \/ PrimFloat.is_nan y = true.
Proof.
  rewrite !is_nan_spec. unfold B64.Math_max. rewrite compare_spec.
  destruct (Prim2SF x) as [s|s| |s m e] eqn:Ex,
           (Prim2SF y) as [s'|s'| |s' m' e'] eqn:Ey; simpl;
    try (split; [|tauto]; intros _; tauto).
  all: try (destruct s); try (destruct s'); simpl;
    try (destruct (classify x)); rewrite ?Ex, ?Ey;
    try (split; [discriminate | intros [H | H]; discriminate]).
  all: destruct (e ?= e'); simpl; rewrite ?Ex, ?Ey;
    try (split; [discriminate | intros [H | H]; discriminate]).
  all: destruct (Pos.compare_cont Eq m m'); simpl;
    try (destruct (classify x)); rewrite ?Ex, ?Ey;
    (split; [discriminate | intros [H | H]; discriminate]).
Qed.

Lemma Prim2SF_0 : Prim2SF 0%float = S754_zero false.
Proof. vm_compute. reflexivity. Qed.

Lemma Prim2SF_1 : Prim2SF 1%float = S754_finite false 4503599627370496 (-52).
Proof. vm_compute. reflexivity. Qed.

Lemma Prim2SF_nan : Prim2SF PrimFloat.nan = S754_nan.
Proof. vm_compute. reflexivity. Qed.

(** [Math.max(0, x)] is [NaN], [+0] or a positive number. *)
Lemma Math_max_0_sign (x : float) :
  SF_sign_plus (Prim2SF (B64.Math_max 0%float x)) = true.
Proof.
  unfold B64.Math_max. rewrite compare_spec, Prim2SF_0.
  change (classify 0%float) with PZero.
  destruct (Prim2SF x) as [s|s| |s m e] eqn:Ex; simpl;
    try destruct s; simpl; rewrite ?Prim2SF_0, ?Prim2SF_nan, ?Ex; reflexivity.
Qed.

Lemma SFcompare_finite_Lt (m : positive) (e : Z) (y : spec_float) :
  SFcompare (S754_finite false m e) y = Some Lt -> SF_positive y = true.
Proof.
  destruct y as [s|s| |s m' e']; simpl; try destruct s; try discriminate;
    reflexivity.
Qed.

(** [Math.max(1, d)] is [NaN], or a positive number or [+Infinity]:
    never a zero. *)
Lemma Math_max_1_shape (d : float) :
  Prim2SF (B64.Math_max 1%float d) = S754_nan
  \/ SF_positive (Prim2SF (B64.Math_max 1%float d)) = true.
Proof.
  unfold B64.Math_max. rewrite compare_spec, Prim2SF_1.
  change (classify 1%float) with PNormal.
  destruct (SFcompare (S754_finite false 4503599627370496 (-52)) (Prim2SF d))
    as [[| |]|] eqn:Ec; cbn [flatten_cmp_opt];
    rewrite ?Prim2SF_1, ?Prim2SF_nan; auto.
  right. exact (SFcompare_finite_Lt _ _ _ Ec).
Qed.

Lemma binary_round_aux_sign (s : bool) (m e : Z) (l : location) :
  match binary_round_aux prec emax s m e l with
  | S754_zero s' | S754_infinity s' | S754_finite s' _ _ => s' = s
  | S754_nan => True
  end.
Proof.
  unfold binary_round_aux.
  destruct (shr_fexp prec emax m e l) as [mrs' e'].
  destruct (shr_fexp prec emax _ e' loc_Exact) as [mrs'' e''].
  destruct (shr_m mrs''); [reflexivity| |exact I].
  destruct (e'' <=? emax - prec); reflexivity.
Qed.

(** The quotient of two numbers whose sign is not set has its sign not
    set. *)
Lemma SFdiv_sign_plus (x y : spec_float) :
  SF_sign_plus x = true -> SF_sign_plus y = true ->
  SF_sign_plus (SF64div x y) = true.
Proof.
  destruct x as [s|s| |s m e], y as [s'|s'| |s' m' e']; simpl;
    try destruct s; try destruct s'; try discriminate; try reflexivity.
  intros _ _. unfold SF64div, SFdiv.
  destruct (SFdiv_core_binary prec emax (Z.pos m) e (Z.pos m') e') as [[mz ez] lz].
  pose proof (binary_round_aux_sign (xorb false false) mz ez lz) as H.
  destruct (binary_round_aux prec emax (xorb false false) mz ez lz); simpl in *;
    subst; reflexivity.
Qed.

Lemma SF_sign_plus_not_below_zero (x : float) :
  SF_sign_plus (Prim2SF x) = true -> (x <? 0)%float = false.
Proof.
  rewrite ltb_spec, Prim2SF_0. unfold SFltb.
  destruct (Prim2SF x) as [s|s| |s m e]; simpl; try destruct s;
    try discriminate; reflexivity.
Qed.

(** The daily limit is [NaN], [+0], a positive number or [+Infinity]. *)
Lemma getDailyLimit_sign (b : B64.Budget.t) (weeklySpent daysLeft : float) :
  SF_sign_plus (Prim2SF (B64.Budget.getDailyLimit b weeklySpent daysLeft)) = true.
Proof.
  unfold B64.Budget.getDailyLimit. cbv zeta. rewrite div_spec.
  apply SFdiv_sign_plus; [apply Math_max_0_sign|].
  destruct (Math_max_1_shape daysLeft) as [H | H]; [now rewrite H|].
  destruct (Prim2SF (B64.Math_max 1 daysLeft)) as [s|s| |s m e];
    try destruct s; try discriminate H; reflexivity.
Qed.

Lemma Math_max_1_not_zero (d : float) :
  (B64.Math_max 1%float d =? 0)%float = false.
Proof.
  rewrite eqb_spec, Prim2SF_0. unfold SFeqb.
  destruct (Math_max_1_shape d) as [H | H]; [now rewrite H|].
  destruct (Prim2SF (B64.Math_max 1 d)) as [s|s| |s m e];
    try destruct s; try discriminate H; reflexivity.
Qed.

(** With nothing left of the allowance the limit is [+0], whatever the
    number of days. *)
Lemma getDailyLimit_nothing_left (b : B64.Budget.t) (weeklySpent daysLeft : float) :
  (B64.Budget.weeklyAllowance b - weeklySpent <=? 0)%float = true ->
  PrimFloat.is_nan daysLeft = false ->
  B64.Budget.getDailyLimit b weeklySpent daysLeft = 0%float.
Proof.
  intros Hle Hd. unfold B64.Budget.getDailyLimit. cbv zeta.
  rewrite (Math_max_ge 0%float _ Hle) by (vm_compute; discriminate).
  apply Prim2SF_inj. rewrite div_spec, Prim2SF_0.
  destruct (Math_max_1_shape daysLeft) as [H | H].
  - apply is_nan_spec, Math_max_nan in H.
    destruct H as [H | H]; [vm_compute in H; discriminate | congruence].
  - destruct (Prim2SF (B64.Math_max 1 daysLeft)) as [s|s| |s m e];
      try destruct s; try discriminate H; reflexivity.
Qed.

(* ================================================================== *)
(** * The budget policy on binary64 numbers *)
(* ================================================================== *)

(** The limit is [NaN] when what is left of the allowance or the
    number of days is. *)
Lemma getDailyLimit_nan (b : B64.Budget.t) (weeklySpent daysLeft : float) :
  PrimFloat.is_nan (B64.Budget.weeklyAllowance b - weeklySpent)%float = true
  \/ PrimFloat.is_nan daysLeft = true ->
  PrimFloat.is_nan (B64.Budget.getDailyLimit b weeklySpent daysLeft) = true.
Proof.
  intro H. unfold B64.Budget.getDailyLimit. cbv zeta.
  apply is_nan_spec. rewrite div_spec. unfold SF64div.
  destruct H as [H | H].
  - assert (N : PrimFloat.is_nan
                  (B64.Math_max 0 (B64.Budget.weeklyAllowance b - weeklySpent))
                = true) by (apply Math_max_nan; now right).
    apply is_nan_spec in N. now rewrite N.
  - assert (N : PrimFloat.is_nan (B64.Math_max 1 daysLeft) = true)
      by (apply Math_max_nan; now right).
    apply is_nan_spec in N. rewrite N.
    now destruct (Prim2SF (B64.Math_max 0 _)).
Qed.

(** C1.  [Budget.getDailyLimit] computes [Math.max(0, weeklyAllowance -
    weeklySpent) / Math.max(1, daysLeft)] on binary64 numbers.  For every
    budget, weekly spend and number of days left, [NaN] and the
    infinities included: the result never compares below zero, also when
    the spend exceeds the allowance, and the divisor is never zero.  The
    two guards do what their names say: when something is left of the
    allowance, the limit is that remainder divided by the days left if
    they are more than one, and divided by one if they are one, zero or
    fewer; it is the same for zero days as for one; when nothing is left
    the limit is 0; and it is [NaN] when the remainder or the number of
    days is.  With an allowance of 4000, 1000 spent and 4 days left the
    limit is 750; with 5000 spent and 2 days left it is 0. *)
Theorem getDailyLimit_spec :
  (forall (b : B64.Budget.t) (weeklySpent daysLeft : float),
      let remaining := (B64.Budget.weeklyAllowance b - weeklySpent)%float in
      (B64.Budget.getDailyLimit b weeklySpent daysLeft <? 0)%float = false
      /\ (B64.Math_max 1 daysLeft =? 0)%float = false
      /\ ((0 <? remaining)%float = true -> (1 <? daysLeft)%float = true ->
          B64.Budget.getDailyLimit b weeklySpent daysLeft
          = (remaining / daysLeft)%float)
      /\ ((0 <? remaining)%float = true -> (daysLeft <=? 1)%float = true ->
          B64.Budget.getDailyLimit b weeklySpent daysLeft
          = (remaining / 1)%float)
      /\ ((daysLeft <=? 1)%float = true ->
          B64.Budget.getDailyLimit b weeklySpent daysLeft
          = B64.Budget.getDailyLimit b weeklySpent 1)
      /\ ((remaining <=? 0)%float = true -> PrimFloat.is_nan daysLeft = false ->
          B64.Budget.getDailyLimit b weeklySpent daysLeft = 0%float)
      /\ (PrimFloat.is_nan remaining = true \/ PrimFloat.is_nan daysLeft = true ->
          PrimFloat.is_nan (B64.Budget.getDailyLimit b weeklySpent daysLeft)
          = true))
  /\ B64.Math_max 1 0 = 1%float
  /\ B64.Budget.getDailyLimit B64.Budget.default 1000 4 = 750%float
  /\ B64.Budget.getDailyLimit B64.Budget.default 5000 2 = 0%float.
Proof.
  split; [|repeat split; vm_compute; reflexivity].
  intros b ws d remaining.
  assert (H1 : (d <=? 1)%float = true -> B64.Math_max 1 d = 1%float).
  { intro H. apply Math_max_ge; [exact H | vm_compute; discriminate]. }
  split; [|split; [|split; [|split; [|split; [|split]]]]].
  - apply SF_sign_plus_not_below_zero, getDailyLimit_sign.
  - apply Math_max_1_not_zero.
  - intros Hr Hd. unfold B64.Budget.getDailyLimit. cbv zeta.
    fold remaining. now rewrite (Math_max_lt _ _ Hr), (Math_max_lt _ _ Hd).
  - intros Hr Hd. unfold B64.Budget.getDailyLimit. cbv zeta.
    fold remaining. now rewrite (Math_max_lt _ _ Hr), (H1 Hd).
  - intro Hd. unfold B64.Budget.getDailyLimit. cbv zeta.
    rewrite (H1 Hd). reflexivity.
  - apply getDailyLimit_nothing_left.
  - apply getDailyLimit_nan.
Qed.

Lemma getDailyLimit_spec_witness :
  B64.Budget.getDailyLimit B64.Budget.default 1000 4 = (3000 / 4)%float
  /\ B64.Budget.getDailyLimit B64.Budget.default 1000 0 = (3000 / 1)%float
  /\ B64.Budget.getDailyLimit B64.Budget.default 5000 2 = 0%float.
Proof.
  destruct (proj1 getDailyLimit_spec B64.Budget.default 1000%float 4%float)
    as (_ & _ & Hmany & _).
  destruct (proj1 getDailyLimit_spec B64.Budget.default 1000%float 0%float)
    as (_ & _ & _ & Hone & _).
  destruct (proj1 getDailyLimit_spec B64.Budget.default 5000%float 2%float)
    as (_ & _ & _ & _ & _ & Hnone & _).
  split; [|split].
  - apply Hmany; reflexivity.
  - apply Hone; reflexivity.
  - apply Hnone; reflexivity.
Defined.

(* ================================================================== *)
(** * The Chai-Index alert on binary64 numbers *)
(* ================================================================== *)

(** The two filters of [miscSpent] keep the Misc transactions dated
    within the bounds. *)
Lemma misc_filters (lo hi : Z) (l : list B64.Transaction.t) :
  filter (fun t => Category_eqb (B64.Transaction.category t) Misc)
    (filter (B64.in_window (TimeValue lo) (TimeValue hi)) l)
  = filter (B64.misc_dated_within lo hi) l.
Proof.
  induction l as [|t l IH]; [reflexivity|].
  cbn [filter]. unfold B64.in_window at 1, B64.misc_dated_within at 1.
  destruct (B64.Transaction.date t) as [|d]; cbn [Date_ge Date_le andb].
  - exact IH.
  - destruct (lo <=? d), (d <=? hi); cbn [andb filter];
      destruct (Category_eqb (B64.Transaction.category t) Misc);
      cbn [andb]; now rewrite IH.
Qed.

(** [miscSpent] is the sum, in the order of the list, of the amounts of
    the Misc transactions dated from the Monday midnight that starts the
    week of the clock reading to the last millisecond of its Sunday. *)
Lemma miscSpent_week (tza : Z) (txs : list B64.Transaction.t) (now : Z) :
  week_margin now ->
  B64.miscSpent tza txs now
  = B64.sum_amounts
      (filter (B64.misc_dated_within (monday_midnight tza now)
                 (monday_midnight tza now + 7 * msPerDay - 1)) txs).
Proof.
  intro Hm. destruct (week_window tza now Hm) as (Es & Ee & _).
  unfold B64.miscSpent, B64.weeklyTransactions.
  now rewrite Es, Ee, misc_filters.
Qed.

(** C2.  The alert is raised exactly when the sum of the Misc amounts
    of the current week, Monday 00:00:00.000 to Sunday 23:59:59.999 local
    time, is strictly greater than the weekly allowance times 0.15, sum
    and product being those of binary64 numbers.  A Misc spend equal to
    the threshold does not raise it.  With an allowance of 1000, Misc
    expenses of 100 and 50 on the first and the last millisecond of the
    week give 150 and no alert, whatever lies outside the week or in
    another category, and one more Misc expense of 1 gives 151 and the
    alert. *)
Theorem chaiIndexExceeded_spec :
  (forall (tza : Z) (txs : list B64.Transaction.t) (b : B64.Budget.t) (now : Z),
      week_margin now ->
      let misc_of_week :=
        filter (B64.misc_dated_within (monday_midnight tza now)
                  (monday_midnight tza now + 7 * msPerDay - 1)) txs in
      B64.miscSpent tza txs now = B64.sum_amounts misc_of_week
      /\ (B64.chaiIndexExceeded tza txs b now = true
          <-> (B64.Budget.weeklyAllowance b * B64.literal_0_15
               <? B64.sum_amounts misc_of_week)%float = true))
  /\ (forall (tza : Z) (txs : list B64.Transaction.t) (b : B64.Budget.t) (now : Z),
         B64.miscSpent tza txs now
         = (B64.Budget.weeklyAllowance b * B64.literal_0_15)%float ->
         B64.chaiIndexExceeded tza txs b now = false)
  /\ (let b := B64.Budget.mk 25000 1000 in
      let txs := B64.week_edges_sample in
      let more := B64.tx 1 Misc sample_now :: txs in
      monday_midnight IST sample_now = B64.sample_monday
      /\ B64.sample_sunday_end = B64.sample_monday + 7 * msPerDay - 1
      /\ B64.miscSpent IST txs sample_now = 150%float
      /\ (B64.Budget.weeklyAllowance b * B64.literal_0_15)%float = 150%float
      /\ B64.chaiIndexExceeded IST txs b sample_now = false
      /\ B64.miscSpent IST more sample_now = 151%float
      /\ B64.chaiIndexExceeded IST more b sample_now = true).
Proof.
  split; [|split].
  - intros tza txs b now Hm misc_of_week. subst misc_of_week.
    unfold B64.chaiIndexExceeded.
    rewrite (miscSpent_week tza txs now Hm). split; reflexivity.
  - intros tza txs b now E. unfold B64.chaiIndexExceeded.
    rewrite E. apply ltb_irrefl.
  - cbv zeta. repeat split; vm_compute; reflexivity.
Qed.

Lemma chaiIndexExceeded_spec_witness :
  B64.miscSpent IST B64.week_edges_sample sample_now
  = B64.sum_amounts
      (filter (B64.misc_dated_within (monday_midnight IST sample_now)
                 (monday_midnight IST sample_now + 7 * msPerDay - 1))
              B64.week_edges_sample).
Proof.
  apply (proj1 chaiIndexExceeded_spec IST B64.week_edges_sample
           B64.Budget.default sample_now).
  exact (month_margin_week _ sample_now_margin).
Defined.

(** The sum the alert compares is the rounded one: Misc amounts of
    598.48, 1.44 and 0.08 add up to 600.0000000000001, which is above
    4000 times 0.15, that is 600, and the alert is raised. *)
Example chaiIndex_rounded_sum :
  B64.miscSpent IST B64.threshold_sample sample_now = 0x1.2c00000000001p+9%float
  /\ (4000 * B64.literal_0_15)%float = 600%float
  /\ B64.chaiIndexExceeded IST B64.threshold_sample B64.Budget.default sample_now
     = true.
Proof. repeat split; vm_compute; reflexivity. Qed.

(* ================================================================== *)
(** * Totals by category on binary64 numbers *)
(* ================================================================== *)

Lemma counts_get_set_same_b64 (counts : B64.counts_t) (c : Category) (v : float) :
  B64.counts_get (B64.counts_set counts c v) c = Some v.
Proof.
  induction counts as [|[k w] rest IH]; simpl.
  - now rewrite Category_eqb_refl.
  - destruct (Category_eqb k c) eqn:E; simpl; rewrite E; [reflexivity | exact IH].
Qed.

Lemma counts_get_set_other_b64 (counts : B64.counts_t) (c c' : Category)
    (v : float) :
  c <> c' ->
  B64.counts_get (B64.counts_set counts c v) c' = B64.counts_get counts c'.
Proof.
  intro Hne. induction counts as [|[k w] rest IH]; simpl.
  - destruct (Category_eqb c c') eqn:E; [|reflexivity].
    apply Category_eqb_eq in E. contradiction.
  - destruct (Category_eqb k c) eqn:E; simpl.
    + apply Category_eqb_eq in E. subst k.
      destruct (Category_eqb c c') eqn:E'; [|reflexivity].
      apply Category_eqb_eq in E'. contradiction.
    + now rewrite IH.
Qed.

Lemma counts_set_In_b64 (counts : B64.counts_t) (c k : Category) (v : float) :
  In k (map fst (B64.counts_set counts c v)) <-> k = c \/ In k (map fst counts).
Proof.
  induction counts as [|[k' w] rest IH]; simpl.
  - intuition congruence.
  - destruct (Category_eqb k' c) eqn:E; simpl.
    + apply Category_eqb_eq in E. subst k'. intuition congruence.
    + rewrite IH. intuition congruence.
Qed.

Lemma counts_set_NoDup_b64 (counts : B64.counts_t) (c : Category) (v : float) :
  NoDup (map fst counts) -> NoDup (map fst (B64.counts_set counts c v)).
Proof.
  induction counts as [|[k w] rest IH]; simpl; intro H.
  - constructor; [intros [] | constructor].
  - inversion H as [|? ? Hk Hrest]; subst.
    destruct (Category_eqb k c) eqn:E; simpl.
    + constructor; assumption.
    + constructor; [|now apply IH].
      rewrite counts_set_In_b64. intros [Ek | Hin]; [|contradiction].
      subst k. now rewrite Category_eqb_refl in E.
Qed.

Lemma fold_count_step_NoDup_b64 (l : list B64.Transaction.t)
    (counts : B64.counts_t) :
  NoDup (map fst counts) ->
  NoDup (map fst (fold_left B64.count_step l counts)).
Proof.
  revert counts. induction l as [|t l IH]; intros counts H; simpl;
    [exact H|].
  apply IH. now apply counts_set_NoDup_b64.
Qed.

(** The entry of a category after the loop is built from the entry
    before it and the transactions of that category alone. *)
Lemma fold_count_step_get_b64 (l : list B64.Transaction.t)
    (counts : B64.counts_t) (c : Category) :
  B64.counts_get (fold_left B64.count_step l counts) c
  = fold_left
      (fun v t => Some (B64.or_default v 0 + B64.Transaction.amount t)%float)
      (filter (fun t => Category_eqb (B64.Transaction.category t) c) l)
      (B64.counts_get counts c).
Proof.
  revert counts. induction l as [|t l IH]; intro counts; [reflexivity|].
  cbn [fold_left filter]. rewrite IH. unfold B64.count_step at 1.
  destruct (Category_eqb (B64.Transaction.category t) c) eqn:E.
  - apply Category_eqb_eq in E. rewrite E.
    cbn [fold_left]. now rewrite counts_get_set_same_b64.
  - rewrite counts_get_set_other_b64; [reflexivity|].
    intro H. rewrite H, Category_eqb_refl in E. discriminate.
Qed.

(** A total exists as soon as one amount has been added. *)
Lemma category_sum_some (l : list B64.Transaction.t) (v : float) :
  fold_left
    (fun v t => Some (B64.or_default v 0 + B64.Transaction.amount t)%float)
    l (Some v) <> None.
Proof.
  revert v. induction l as [|t l IH]; intro v; cbn [fold_left];
    [discriminate | apply IH].
Qed.

(** A category has no total exactly when no transaction of the list has
    it. *)
Lemma category_sum_None (c : Category) (w : list B64.Transaction.t) :
  B64.category_sum c w = None
  <-> forall t, In t w -> B64.Transaction.category t <> c.
Proof.
  unfold B64.category_sum.
  destruct (filter (fun t => Category_eqb (B64.Transaction.category t) c) w)
    as [|t0 l] eqn:F; cbn [fold_left].
  - split; [|reflexivity]. intros _ t Ht Ec.
    assert (Hin : In t (filter (fun t => Category_eqb
                                  (B64.Transaction.category t) c) w)).
    { apply filter_In. split; [exact Ht | now apply Category_eqb_eq]. }
    rewrite F in Hin. exact Hin.
  - split.
    + intro H. now apply category_sum_some in H.
    + intro H. exfalso.
      assert (Hin : In t0 (filter (fun t => Category_eqb
                                     (B64.Transaction.category t) c) w))
        by (rewrite F; now left).
      apply filter_In in Hin. destruct Hin as [Hw Ec].
      apply Category_eqb_eq in Ec. exact (H t0 Hw Ec).
Qed.

(** C7, amended.  For every list of transactions and every window, the
    mapping has an entry for a category exactly when a transaction of the
    window has that category, so a category with no matching transaction
    is absent rather than present with the value zero; no category has
    two entries; and the value of an entry is the total of the amounts of
    the window's transactions of that category alone, added in the order
    of the list on binary64 numbers. *)
Theorem sumByCategory_entries (txs : list B64.Transaction.t)
    (start end_ : Date) :
  (forall c, B64.counts_get (B64.sumByCategory txs start end_) c
             = B64.category_sum c (filter (B64.in_window start end_) txs))
  /\ (forall c, B64.counts_get (B64.sumByCategory txs start end_) c = None
                <-> forall t, In t txs -> B64.in_window start end_ t = true ->
                              B64.Transaction.category t <> c)
  /\ NoDup (map fst (B64.sumByCategory txs start end_)).
Proof.
  assert (G : forall c, B64.counts_get (B64.sumByCategory txs start end_) c
                        = B64.category_sum c
                            (filter (B64.in_window start end_) txs)).
  { intro c. unfold B64.sumByCategory, B64.category_totals, B64.category_sum.
    now rewrite fold_count_step_get_b64. }
  split; [exact G|]. split.
  - intro c. rewrite G, category_sum_None. split.
    + intros H t Ht Hw. apply H, filter_In. now split.
    + intros H t Ht. apply filter_In in Ht. destruct Ht as [Ht Hw].
      now apply H.
  - unfold B64.sumByCategory, B64.category_totals.
    apply fold_count_step_NoDup_b64. constructor.
Qed.

(** C7, as stated, fails: the totals by category do not always add up
    to the windowed sum.  With the amounts 0.1, 0.1 and 0.65 in the
    week, the first and the last of one category, the totals are 0.75 and
    0.1, whose sum is 0.85, while the sum of the week is
    0.8500000000000001. *)
Lemma totals_add_up_fails :
  B64.categoryData IST B64.rounding_sample sample_now
  = [(Mess_Food, 0.75%float); (Misc, 0x1.999999999999ap-4%float)]
  /\ B64.sum_values (B64.categoryData IST B64.rounding_sample sample_now)
     = 0x1.b333333333333p-1%float
  /\ B64.weeklySpent IST B64.rounding_sample sample_now
     = 0x1.b333333333334p-1%float
  /\ ~ B64.totals_add_up.
Proof.
  repeat split; try (vm_compute; reflexivity).
  intro H.
  specialize (H B64.rounding_sample (weekStart IST sample_now)
                (weekEnd IST sample_now)).
  apply (f_equal (fun x => PrimFloat.eqb x 0x1.b333333333333p-1%float)) in H.
  vm_compute in H. discriminate H.
Qed.

(* ================================================================== *)
(** * Further properties of the budget policy *)
(* ================================================================== *)

Lemma Qc_div_le_compat (a b c : Qc) :
  (a <= b)%Qc -> (1 <= c)%Qc -> (a / c <= b / c)%Qc.
Proof.
  intros H Hc. unfold Qcdiv. apply Qcmult_le_compat_r; [exact H|].
  qc_to_q. unfold Qcinv. cbn [this Q2Qc]. rewrite Qred_correct.
  apply Qlt_le_weak, Qinv_lt_0_compat. lra.
Qed.

Lemma Qc_sub_le_mono (wa ws ws' : Qc) :
  (ws <= ws')%Qc -> (wa - ws' <= wa - ws)%Qc.
Proof. intro H. qc_to_q. lra. Qed.

(** What is left of a finite allowance, clamped at zero. *)
Lemma Math_max_0_finite (x : Qc) :
  exists a, Math_max (num 0) (Finite x) = Finite a
            /\ (0 <= a)%Qc /\ (x <= a)%Qc
            /\ ((0 < x)%Qc -> a = x) /\ ((x <= 0)%Qc -> a = 0%Qc).
Proof.
  unfold Math_max, num. cbn [num_lt].
  destruct (Qc_ltb (Qc_of_Z 0) x) eqn:E.
  - apply Qc_ltb_lt in E. exists x. repeat split.
    + now apply Qclt_le_weak.
    + apply Qcle_refl.
    + intro H. exfalso. exact (Qcle_not_lt _ _ H E).
  - apply Qc_ltb_ge in E. exists (Qc_of_Z 0). repeat split.
    + apply Qcle_refl.
    + exact E.
    + intro H. exfalso. exact (Qcle_not_lt _ _ E H).
Qed.

(** X5.  The more has been spent in the week, the lower the daily limit:
    for two finite weekly spends [ws <= ws'] the limit computed from
    [ws] is not below the one computed from [ws'], whatever the budget
    and the number of days left. *)
Theorem getDailyLimit_antitone (b : Budget.t) (daysLeft : number)
    (ws ws' : Qc) :
  (ws <= ws')%Qc ->
  num_lt (Budget.getDailyLimit b (Finite ws) daysLeft)
         (Budget.getDailyLimit b (Finite ws') daysLeft) = false.
Proof.
  intro Hle. unfold Budget.getDailyLimit.
  destruct (Budget.weeklyAllowance b) as [|s|wa]; cbn [num_sub].
  - reflexivity.
  - apply num_lt_irrefl.
  - destruct (Math_max_0_finite (wa - ws)) as (a & Ea & Ha0 & Hax & Hpos & Hneg).
    destruct (Math_max_0_finite (wa - ws')) as (a' & Ea' & Ha0' & Hax' & Hpos' & Hneg').
    rewrite Ea, Ea'.
    assert (Haa : (a' <= a)%Qc).
    { destruct (Qclt_le_dec 0 (wa - ws')) as [P | N].
      - rewrite (Hpos' P). apply Qcle_trans with (y := (wa - ws)%Qc); [|exact Hax].
        now apply Qc_sub_le_mono.
      - rewrite (Hneg' N). exact Ha0. }
    destruct (Math_max_finite_l (Qc_of_Z 1) daysLeft)
      as [H | [H | (c & Hc & Lc)]]; unfold num; rewrite ?H, ?Hc; cbn [num_div].
    + reflexivity.
    + apply num_lt_irrefl.
    + assert (Ec : Qc_eqb c 0 = false) by (apply Qc_eqb_neq, Qc_one_le_neq_0, Lc).
      rewrite Ec. cbn [num_lt]. apply Qc_ltb_ge.
      now apply Qc_div_le_compat.
Qed.

Lemma getDailyLimit_antitone_witness :
  num_lt (Budget.getDailyLimit Budget.default (num 1000) (num 4))
         (Budget.getDailyLimit Budget.default (num 2500) (num 4)) = false.
Proof.
  apply (getDailyLimit_antitone Budget.default (num 4)
           (Qc_of_Z 1000) (Qc_of_Z 2500)).
  vm_compute. discriminate.
Defined.

Lemma Qc_div_le_self (a c : Qc) : (0 <= a)%Qc -> (1 <= c)%Qc -> (a / c <= a)%Qc.
Proof.
  intros Ha Hc.
  assert (Hc0 : (0 < c)%Qc).
  { apply Qclt_le_trans with (y := 1%Qc); [reflexivity | exact Hc]. }
  apply Qcmult_lt_0_le_reg_r with (z := c); [exact Hc0|].
  replace (a / c * c)%Qc with a
    by (field; intro E; rewrite E in Hc0; revert Hc0; apply Qcle_not_lt, Qcle_refl).
  replace (a * c)%Qc with (c * a)%Qc by ring.
  replace a with (1 * a)%Qc at 1 by ring.
  apply Qcmult_le_compat_r; assumption.
Qed.

(** X6.  The daily limit is never above what is left of the allowance:
    for every budget, weekly spend and number of days left, [NaN] and the
    infinities included, [Math.max(0, weeklyAllowance - weeklySpent)]
    does not compare below the limit, because the divisor is at least
    1. *)
Theorem getDailyLimit_within_remaining (b : Budget.t)
    (weeklySpent daysLeft : number) :
  num_lt (Math_max (num 0) (num_sub (Budget.weeklyAllowance b) weeklySpent))
         (Budget.getDailyLimit b weeklySpent daysLeft) = false.
Proof.
  unfold Budget.getDailyLimit.
  destruct (Math_max_finite_l (Qc_of_Z 0)
              (num_sub (Budget.weeklyAllowance b) weeklySpent))
    as [H | [H | (a & Ha & La)]];
  destruct (Math_max_finite_l (Qc_of_Z 1) daysLeft)
    as [H' | [H' | (c & Hc & Lc)]];
  unfold num; rewrite ?H, ?H', ?Ha, ?Hc; cbn [num_div num_lt]; try reflexivity.
  - destruct (Qccompare c 0); reflexivity.
  - apply Qc_ltb_ge. exact La.
  - assert (Ec : Qc_eqb c 0 = false) by (apply Qc_eqb_neq, Qc_one_le_neq_0, Lc).
    rewrite Ec. cbn [num_lt]. apply Qc_ltb_ge. now apply Qc_div_le_self.
Qed.

(** [x - y < 0] is [x < y], also on [NaN] and the infinities. *)
Lemma num_sub_lt_0 (x y : number) :
  num_lt (num_sub x y) (num 0) = num_lt x y.
Proof.
  destruct x as [|s|a], y as [|s'|b]; cbn [num_sub num_lt num]; try reflexivity.
  - destruct s, s'; reflexivity.
  - destruct (Qc_ltb a b) eqn:E.
    + apply Qc_ltb_lt. apply Qc_ltb_lt in E. qc_to_q. lra.
    + apply Qc_ltb_ge. apply Qc_ltb_ge in E. qc_to_q. lra.
Qed.

(** X7.  The OVER badge, shown when [dailyRemaining < 0], is shown
    exactly when what was spent today is strictly above the daily limit;
    in particular never while nothing has been spent today. *)
Theorem isOverDailyLimit_iff (tza : Z) (txs : list Transaction.t)
    (b : Budget.t) (now : Z) :
  isOverDailyLimit tza txs b now
  = num_gt (todaySpent tza txs now) (dailyLimit tza txs b now)
  /\ (todaySpent tza txs now = num 0 -> isOverDailyLimit tza txs b now = false).
Proof.
  assert (E : isOverDailyLimit tza txs b now
              = num_gt (todaySpent tza txs now) (dailyLimit tza txs b now)).
  { unfold isOverDailyLimit, dailyRemaining, num_gt. apply num_sub_lt_0. }
  split; [exact E|].
  intro H. unfold isOverDailyLimit, dailyRemaining. rewrite H, num_sub_0_r.
  apply getDailyLimit_not_negative.
Qed.

(* ================================================================== *)
(** * Further properties of the week and month windows *)
(* ================================================================== *)

(** X1.  The window of the weekly figures contains the clock reading: it
    runs from the local midnight that starts the Monday on or before
    today to the last millisecond of the following Sunday, seven days
    later. *)
Theorem week_window_contains_now (tza now : Z) :
  week_margin now ->
  exists ws we,
    weekStart tza now = TimeValue ws
    /\ weekEnd tza now = TimeValue we
    /\ ws <= now <= we
    /\ we = ws + 7 * msPerDay - 1
    /\ WeekDay (ws + tza) = 1
    /\ TimeWithinDay (ws + tza) = 0.
Proof.
  intro Hm.
  destruct (week_window tza now Hm) as (Es & Ee & Hin & Hwd & Htw & _).
  exists (monday_midnight tza now), (monday_midnight tza now + 7 * msPerDay - 1).
  repeat split; try assumption; apply Hin.
Qed.

Lemma week_window_contains_now_witness :
  exists ws we,
    weekStart IST sample_now = TimeValue ws
    /\ weekEnd IST sample_now = TimeValue we
    /\ ws <= sample_now <= we
    /\ we = ws + 7 * msPerDay - 1
    /\ WeekDay (ws + IST) = 1
    /\ TimeWithinDay (ws + IST) = 0.
Proof.
  apply (week_window_contains_now IST sample_now).
  exact (month_margin_week _ sample_now_margin).
Defined.

(** X2.  The number of days left in the week, today included, is a whole
    number from 1 (on Sunday) to 7 (on Monday), so the guard
    [Math.max(1, daysLeft)] of the daily limit leaves it as it is and the
    limit is what is left of the allowance divided by that number. *)
Theorem daysLeftInWeek_range (tza : Z) (txs : list Transaction.t)
    (b : Budget.t) (now : Z) :
  week_margin now ->
  exists k,
    daysLeftInWeek tza now = num k
    /\ 1 <= k <= 7
    /\ k = 7 - (WeekDay (now + tza) + 6) mod 7
    /\ dailyLimit tza txs b now
       = num_div (Math_max (num 0)
                    (num_sub (Budget.weeklyAllowance b) (weeklySpent tza txs now)))
                 (num k).
Proof.
  intro Hm.
  destruct (week_window tza now Hm) as (_ & _ & _ & _ & _ & Ed & Emax).
  pose proof (days_since_monday_range (now + tza)) as Hr.
  exists (7 - days_since_monday (now + tza)).
  repeat split; try lia; [exact Ed|].
  unfold dailyLimit, Budget.getDailyLimit. rewrite Emax, Ed. reflexivity.
Qed.

Lemma daysLeftInWeek_range_witness :
  exists k,
    daysLeftInWeek IST sample_now = num k
    /\ 1 <= k <= 7
    /\ k = 7 - (WeekDay (sample_now + IST) + 6) mod 7
    /\ dailyLimit IST [] Budget.default sample_now
       = num_div (Math_max (num 0)
                    (num_sub (Budget.weeklyAllowance Budget.default)
                             (weeklySpent IST [] sample_now)))
                 (num k).
Proof.
  apply (daysLeftInWeek_range IST [] Budget.default sample_now).
  exact (month_margin_week _ sample_now_margin).
Defined.

Lemma TimeClip_value (x y : Z) : TimeClip x = TimeValue y -> x = y.
Proof.
  unfold TimeClip. destruct (maxTime <? Z.abs x); congruence.
Qed.

(** Two dates on the same local day have the same local day number. *)
Lemma isSameDay_Day (tza d now : Z) :
  isSameDay tza (TimeValue d) (TimeValue now) = true ->
  Day (d + tza) = Day (now + tza).
Proof.
  unfold isSameDay, startOfDay. rewrite !setHours_value.
  change (MakeTime 0 0 0 0) with 0.
  destruct (TimeClip (Day (d + tza) * msPerDay + 0 - tza)) as [|x] eqn:Ex;
    [discriminate|].
  destruct (TimeClip (Day (now + tza) * msPerDay + 0 - tza)) as [|y] eqn:Ey;
    [discriminate|].
  cbn [Date_same_instant]. intro H. apply Z.eqb_eq in H.
  apply TimeClip_value in Ex, Ey. unfold msPerDay in *. lia.
Qed.

Lemma isSameDay_refl (tza now : Z) :
  week_margin now -> isSameDay tza (TimeValue now) (TimeValue now) = true.
Proof.
  unfold week_margin, maxTime, msPerDay. intro Hm.
  unfold isSameDay, startOfDay. rewrite setHours_value.
  change (MakeTime 0 0 0 0) with 0.
  pose proof (Day_bounds (now + tza)) as Hb. unfold msPerDay in Hb.
  rewrite TimeClip_valid by (unfold valid_time, maxTime, msPerDay; lia).
  cbn [Date_same_instant]. apply Z.eqb_refl.
Qed.

(** A date on the same local day as the clock reading is within the
    week that contains it. *)
Lemma isSameDay_in_window (tza now : Z) (t : Transaction.t) :
  week_margin now ->
  isSameDay tza (Transaction.date t) (today now) = true ->
  in_window (weekStart tza now) (weekEnd tza now) t = true.
Proof.
  intros Hm Hs.
  destruct (week_window tza now Hm) as (Es & Ee & Hin & _).
  unfold in_window, today in *. rewrite Es, Ee.
  destruct (Transaction.date t) as [|d]; [discriminate Hs|].
  apply isSameDay_Day in Hs.
  pose proof (Day_bounds (d + tza)) as Hd.
  pose proof (days_since_monday_range (now + tza)) as Hr.
  cbn [Date_ge Date_le]. apply andb_true_intro.
  unfold monday_midnight, msPerDay in *. rewrite <- Hs in *.
  split; apply Z.leb_le; lia.
Qed.

(** X3.  A transaction on the same local day as today lies in the week
    window: every transaction counted in today's spend is one of the
    transactions of the week. *)
Theorem today_within_week (tza : Z) (txs : list Transaction.t) (now : Z)
    (t : Transaction.t) :
  week_margin now ->
  In t (filter (fun t => isSameDay tza (Transaction.date t) (today now)) txs) ->
  In t (weeklyTransactions tza txs now).
Proof.
  intros Hm Hin. apply filter_In in Hin. destruct Hin as [Hin Hs].
  apply filter_In. split; [exact Hin|].
  now apply isSameDay_in_window.
Qed.

Lemma today_within_week_witness :
  In (sample_tx "a" 100 Misc (sample_now - 3600000))
     (weeklyTransactions IST
        [sample_tx "b" 5 Social 0;
         sample_tx "a" 100 Misc (sample_now - 3600000)] sample_now).
Proof.
  apply (today_within_week IST
           [sample_tx "b" 5 Social 0;
            sample_tx "a" 100 Misc (sample_now - 3600000)] sample_now).
  - exact (month_margin_week _ sample_now_margin).
  - vm_compute. left. reflexivity.
Defined.

(** Sums of non-negative finite amounts grow with the set summed. *)
Lemma total_amount_filter_le (f g : Transaction.t -> bool)
    (l : list Transaction.t) :
  Forall has_nonneg_amount l ->
  (forall t, In t l -> f t = true -> g t = true) ->
  exists p q, total_amount (filter f l) = Finite p
              /\ total_amount (filter g l) = Finite q
              /\ (0 <= p)%Qc /\ (p <= q)%Qc.
Proof.
  induction l as [|t l IH]; intros Hall Himp.
  - exists 0%Qc, 0%Qc. repeat split; apply Qcle_refl.
  - inversion Hall as [|? ? (a & Ea & Ha) Hl]; subst.
    destruct IH as (p & q & Ep & Eq & Hp & Hpq);
      [exact Hl | intros u Hu; apply Himp; now right |].
    specialize (Himp t (or_introl eq_refl)).
    cbn [filter]. destruct (f t) eqn:Ef.
    + rewrite (Himp eq_refl). cbn [total_amount]. rewrite Ea, Ep, Eq.
      exists (a + p)%Qc, (a + q)%Qc. repeat split; qc_to_q; lra.
    + destruct (g t); cbn [total_amount]; rewrite ?Ea, Ep, Eq.
      * exists p, (a + q)%Qc. repeat split; qc_to_q; lra.
      * exists p, q. repeat split; assumption.
Qed.

(** X4.  With amounts that are finite and not negative, what was spent
    today is never more than what was spent in the week. *)
Theorem todaySpent_le_weeklySpent (tza : Z) (txs : list Transaction.t)
    (now : Z) :
  week_margin now ->
  Forall has_nonneg_amount txs ->
  num_lt (weeklySpent tza txs now) (todaySpent tza txs now) = false.
Proof.
  intros Hm Hall.
  unfold weeklySpent, todaySpent, weeklyTransactions.
  rewrite !sum_amounts_total.
  destruct (total_amount_filter_le
              (fun t => isSameDay tza (Transaction.date t) (today now))
              (in_window (weekStart tza now) (weekEnd tza now)) txs Hall)
    as (p & q & Ep & Eq & _ & Hpq).
  - intros t _ Hs. now apply isSameDay_in_window.
  - rewrite Ep, Eq. cbn [num_lt]. now apply Qc_ltb_ge.
Qed.

Lemma todaySpent_le_weeklySpent_witness :
  num_lt (weeklySpent IST [sample_tx "a" 100 Misc sample_now;
                           sample_tx "b" 60 Social (sample_now + 86400000)]
            sample_now)
         (todaySpent IST [sample_tx "a" 100 Misc sample_now;
                          sample_tx "b" 60 Social (sample_now + 86400000)]
            sample_now) = false.
Proof.
  apply (todaySpent_le_weeklySpent IST
           [sample_tx "a" 100 Misc sample_now;
            sample_tx "b" 60 Social (sample_now + 86400000)] sample_now).
  - exact (month_margin_week _ sample_now_margin).
  - repeat constructor; eexists; (split; [reflexivity | vm_compute; discriminate]).
Defined.

(* ================================================================== *)
(** * Further properties of adding a transaction *)
(* ================================================================== *)

(** X8.  After an accepted submission at the instant [now], the new
    transaction is counted in the week, in today and in the month: it is
    the first of the transactions each of the three filters keeps, ahead
    of those kept before, so each figure is the [reduce] of the new
    transaction followed by the list it was the [reduce] of before. *)
Theorem handleAddTransaction_counted (tza : Z) (fresh : string)
    (now : Z) (st : AppState) :
  month_margin now ->
  isNaN (parseFloat (st_newAmount st)) = false ->
  let before := st_transactions st in
  let after := st_transactions (handleAddTransaction fresh now st) in
  let t := Transaction.mk fresh (parseFloat (st_newAmount st))
             (st_newCategory st) (st_newMethod st) (TimeValue now)
             (st_newNote st) in
  let same_day := fun u => isSameDay tza (Transaction.date u) (today now) in
  let in_month :=
    fun u => Date_ge (Transaction.date u) (startOfMonth tza (today now)) in
  weeklyTransactions tza after now = t :: weeklyTransactions tza before now
  /\ filter same_day after = t :: filter same_day before
  /\ filter in_month after = t :: filter in_month before
  /\ weeklySpent tza after now
     = sum_amounts (t :: weeklyTransactions tza before now)
  /\ todaySpent tza after now = sum_amounts (t :: filter same_day before)
  /\ monthlySpent tza after now = sum_amounts (t :: filter in_month before).
Proof.
  intros Hmm Hok. cbv zeta.
  pose proof (month_margin_week _ Hmm) as Hm.
  rewrite (handleAddTransaction_accepts fresh now st Hok).
  cbn [st_transactions].
  destruct (week_window tza now Hm) as (Es & Ee & Hin & _).
  assert (W : weeklyTransactions tza
                (Transaction.mk fresh (parseFloat (st_newAmount st))
                   (st_newCategory st) (st_newMethod st) (TimeValue now)
                   (st_newNote st) :: st_transactions st) now
              = Transaction.mk fresh (parseFloat (st_newAmount st))
                  (st_newCategory st) (st_newMethod st) (TimeValue now)
                  (st_newNote st)
                :: weeklyTransactions tza (st_transactions st) now).
  { unfold weeklyTransactions. cbn [filter].
    unfold in_window at 1. cbn [Transaction.date]. rewrite Es, Ee.
    cbn [Date_ge Date_le].
    replace (monday_midnight tza now <=? now) with true
      by (symmetry; apply Z.leb_le; lia).
    replace (now <=? monday_midnight tza now + 7 * msPerDay - 1) with true
      by (symmetry; apply Z.leb_le; lia).
    reflexivity. }
  assert (D : filter (fun u => isSameDay tza (Transaction.date u) (today now))
                (Transaction.mk fresh (parseFloat (st_newAmount st))
                   (st_newCategory st) (st_newMethod st) (TimeValue now)
                   (st_newNote st) :: st_transactions st)
              = Transaction.mk fresh (parseFloat (st_newAmount st))
                  (st_newCategory st) (st_newMethod st) (TimeValue now)
                  (st_newNote st)
                :: filter (fun u => isSameDay tza (Transaction.date u) (today now))
                     (st_transactions st)).
  { cbn [filter Transaction.date]. unfold today.
    now rewrite (isSameDay_refl tza now Hm). }
  assert (M : filter (fun u => Date_ge (Transaction.date u)
                                 (startOfMonth tza (today now)))
                (Transaction.mk fresh (parseFloat (st_newAmount st))
                   (st_newCategory st) (st_newMethod st) (TimeValue now)
                   (st_newNote st) :: st_transactions st)
              = Transaction.mk fresh (parseFloat (st_newAmount st))
                  (st_newCategory st) (st_newMethod st) (TimeValue now)
                  (st_newNote st)
                :: filter (fun u => Date_ge (Transaction.date u)
                                      (startOfMonth tza (today now)))
                     (st_transactions st)).
  { cbn [filter Transaction.date]. unfold today.
    rewrite (startOfMonth_first tza now Hmm). cbn [Date_ge].
    pose proof (DateFromTime_range (now + tza)) as Hd.
    pose proof (Day_bounds (now + tza)) as Hb.
    replace (first_midnight tza now <=? now) with true
      by (symmetry; apply Z.leb_le; unfold first_midnight, msPerDay in *; lia).
    reflexivity. }
  split; [exact W|]. split; [exact D|]. split; [exact M|].
  split; [|split].
  - unfold weeklySpent. now rewrite W.
  - unfold todaySpent. now rewrite D.
  - unfold monthlySpent. now rewrite M.
Qed.

Lemma handleAddTransaction_counted_witness :
  let before := st_transactions (sample_state "12.50") in
  let after :=
    st_transactions
      (handleAddTransaction "x7f2k9q1z" sample_now (sample_state "12.50")) in
  let t := Transaction.mk "x7f2k9q1z" (parseFloat "12.50") Misc Cash
             (TimeValue sample_now) "chai" in
  let same_day :=
    fun u => isSameDay IST (Transaction.date u) (today sample_now) in
  let in_month :=
    fun u => Date_ge (Transaction.date u)
               (startOfMonth IST (today sample_now)) in
  weeklyTransactions IST after sample_now
  = t :: weeklyTransactions IST before sample_now
  /\ filter same_day after = t :: filter same_day before
  /\ filter in_month after = t :: filter in_month before
  /\ weeklySpent IST after sample_now
     = sum_amounts (t :: weeklyTransactions IST before sample_now)
  /\ todaySpent IST after sample_now = sum_amounts (t :: filter same_day before)
  /\ monthlySpent IST after sample_now
     = sum_amounts (t :: filter in_month before).
Proof.
  apply (handleAddTransaction_counted IST "x7f2k9q1z" sample_now
           (sample_state "12.50")).
  - exact sample_now_margin.
  - reflexivity.
Defined.

(** X9.  Submitting twice adds once: the handler clears the amount
    field, so a second submission right after the first, accepted or
    not, changes nothing. *)
Theorem handleAddTransaction_twice (fresh1 fresh2 : string) (now1 now2 : Z)
    (st : AppState) :
  handleAddTransaction fresh2 now2 (handleAddTransaction fresh1 now1 st)
  = handleAddTransaction fresh1 now1 st.
Proof.
  destruct (isNaN (parseFloat (st_newAmount st))) eqn:E.
  - rewrite (handleAddTransaction_rejects fresh1 now1 st E).
    now apply handleAddTransaction_rejects.
  - rewrite (handleAddTransaction_accepts fresh1 now1 st E).
    apply handleAddTransaction_rejects. reflexivity.
Qed.

(* ================================================================== *)
(** * Decimal texts of integers *)
(* ================================================================== *)

Lemma digit_char_plain (d : Z) (rest : list ascii) :
  is_digit d ->
  trimStart (digit_char d :: rest) = digit_char d :: rest
  /\ Ascii.eqb "I" (digit_char d) = false.
Proof.
  intro H. destruct (digit_cases d H) as [E | H'];
    [| repeat (destruct H' as [E | H']; [subst d; split; reflexivity|])];
    subst d; split; reflexivity.
Qed.

Lemma digit_list_spec (fuel : nat) (n : Z) :
  (1 <= fuel)%nat -> 0 <= n < 10 ^ Z.of_nat fuel ->
  digit_list fuel n <> []
  /\ Forall is_digit (digit_list fuel n)
  /\ digits_value (digit_list fuel n) 0 = n.
Proof.
  revert n. induction fuel as [|f IH]; intros n Hf Hn; [lia|].
  cbn [digit_list]. destruct (Z.ltb_spec n 10) as [Hlt | Hge].
  - split; [|split].
    + discriminate.
    + constructor; [unfold is_digit; lia | constructor].
    + unfold digits_value. cbn [fold_left]. lia.
  - rewrite pow10_succ in Hn.
    assert (Hf' : (1 <= f)%nat).
    { destruct f; [simpl in Hn; lia | lia]. }
    assert (Hq : 0 <= n / 10 < 10 ^ Z.of_nat f).
    { split; [apply Z.div_pos; lia|]. apply Z.div_lt_upper_bound; lia. }
    destruct (IH (n / 10) Hf' Hq) as (Hne & Hall & Hval).
    split; [|split].
    + intro E. apply app_eq_nil in E. destruct E as [_ E]. discriminate E.
    + apply Forall_app. split; [exact Hall|].
      constructor; [|constructor]. unfold is_digit.
      pose proof (Z.mod_pos_bound n 10). lia.
    + unfold digits_value in *. rewrite fold_left_app, Hval. cbn [fold_left].
      pose proof (Z.div_mod n 10). lia.
Qed.

(** Scanning runs through a written list of digits. *)
Lemma scan_digits_written (ds : list Z) (rest : list ascii) (acc : Z)
    (k : nat) :
  Forall is_digit ds ->
  scan_digits (map digit_char ds ++ rest) acc k
  = scan_digits rest (digits_value ds acc) (k + List.length ds)%nat.
Proof.
  revert acc k. induction ds as [|d ds IH]; intros acc k H.
  - cbn. now rewrite Nat.add_0_r.
  - inversion H as [|? ? Hd Hds]; subst.
    cbn [map app scan_digits]. rewrite (digit_value_char d Hd), (IH _ _ Hds).
    cbn [digits_value fold_left List.length]. f_equal. lia.
Qed.

Lemma digits_value_nonneg (ds : list Z) (acc : Z) :
  Forall is_digit ds -> 0 <= acc -> 0 <= digits_value ds acc.
Proof.
  revert acc. induction ds as [|d ds IH]; intros acc H Ha; [exact Ha|].
  inversion H as [|? ? Hd Hds]; subst. cbn [digits_value fold_left].
  apply IH; [exact Hds | unfold is_digit in Hd; lia].
Qed.

(** A non-empty run of digits is read as the number it denotes. *)
Lemma scan_unsigned_written (ds : list Z) :
  ds <> [] -> Forall is_digit ds ->
  scan_unsigned (map digit_char ds)
  = Some (of_decimal (Qc_of_Z (digits_value ds 0))).
Proof.
  intros Hne Hall. destruct ds as [|d ds]; [congruence|].
  pose proof (Forall_inv Hall) as Hd.
  destruct (digit_char_plain d [] Hd) as [_ HI].
  unfold scan_unsigned.
  change (list_ascii_of_string "Infinity")
    with ("I"%char :: list_ascii_of_string "nfinity").
  cbn [map strip_prefix]. rewrite HI.
  pose proof (scan_digits_written (d :: ds) [] 0 O Hall) as S.
  rewrite app_nil_r in S. cbn [map] in S. rewrite S.
  cbn [scan_digits Nat.add List.length]. reflexivity.
Qed.

Lemma Qc_of_Z_opp (n : Z) : (- Qc_of_Z n)%Qc = Qc_of_Z (- n).
Proof.
  apply Qc_is_canon. unfold Qc_of_Z, Qcopp. cbn [this Q2Qc].
  rewrite !Qred_correct. unfold inject_Z, Qopp, Qeq. simpl. lia.
Qed.

Lemma Qc_of_Z_lt (a b : Z) : a < b -> (Qc_of_Z a < Qc_of_Z b)%Qc.
Proof.
  intro H. unfold Qclt, Qc_of_Z. cbn [this Q2Qc].
  rewrite !Qred_correct. unfold inject_Z, Qlt. simpl. lia.
Qed.

(** An integer below the overflow bound is read as it is written. *)
Lemma of_decimal_integer (n : Z) :
  n < 10 ^ 21 -> of_decimal (Qc_of_Z n) = num n.
Proof.
  intro H. unfold of_decimal.
  assert (B : 10 ^ 21 < overflow_bound) by (vm_compute; reflexivity).
  assert (L : Qc_ltb (Qc_of_Z n) (Qc_of_Z overflow_bound) = true).
  { apply Qc_ltb_lt, Qc_of_Z_lt. lia. }
  now rewrite L.
Qed.

(** [parseFloat] reads the decimal text of an integer as that integer. *)
Lemma parseFloat_Z_toString (n : Z) :
  - 10 ^ 21 < n < 10 ^ 21 -> parseFloat (Z_toString n) = num n.
Proof.
  intro Hn. unfold parseFloat, Z_toString.
  rewrite list_ascii_of_string_of_list_ascii.
  destruct (Z.ltb_spec n 0) as [Hneg | Hpos].
  - destruct (digit_list_spec 21 (- n) ltac:(lia) ltac:(change (Z.of_nat 21) with 21; lia))
      as (Hne & Hall & Hval).
    change (trimStart ("-"%char :: map digit_char (digit_list 21 (- n))))
      with ("-"%char :: map digit_char (digit_list 21 (- n))).
    cbv beta iota zeta. change (Ascii.eqb "-" "-") with true. cbv iota.
    rewrite (scan_unsigned_written _ Hne Hall), Hval.
    rewrite of_decimal_integer by lia.
    unfold num, num_neg. f_equal. rewrite Qc_of_Z_opp. f_equal. lia.
  - destruct (digit_list_spec 21 n ltac:(lia) ltac:(change (Z.of_nat 21) with 21; lia))
      as (Hne & Hall & Hval).
    destruct (digit_list 21 n) as [|d ds] eqn:E; [congruence|].
    pose proof (Forall_inv Hall) as Hd.
    destruct (digit_char_plain d (map digit_char ds) Hd) as [Hw _].
    destruct (digit_char_not_sign d Hd) as [Hp Hm].
    cbn [map]. rewrite Hw, Hm, Hp.
    change (digit_char d :: map digit_char ds) with (map digit_char (d :: ds)).
    rewrite (scan_unsigned_written _ Hne Hall), Hval.
    apply of_decimal_integer. lia.
Qed.

(** X10.  The handler checks neither the sign nor the size of the
    amount: the decimal text of any integer from [-2^53] to [2^53], the
    integers in the range where binary64 holds every one of them, zero
    and the negative ones included, is accepted, and a transaction of
    exactly that amount is put at the head of the list. *)
Theorem handleAddTransaction_any_integer (fresh : string) (now : Z)
    (st : AppState) (n : Z) :
  - 2 ^ 53 <= n <= 2 ^ 53 ->
  st_newAmount st = Z_toString n ->
  st_transactions (handleAddTransaction fresh now st)
  = Transaction.mk fresh (num n) (st_newCategory st) (st_newMethod st)
      (TimeValue now) (st_newNote st)
    :: st_transactions st.
Proof.
  intros Hn Htext.
  assert (P : parseFloat (st_newAmount st) = num n)
    by (rewrite Htext; apply parseFloat_Z_toString; lia).
  rewrite handleAddTransaction_accepts by (rewrite P; reflexivity).
  cbn [st_transactions]. now rewrite P.
Qed.

Lemma handleAddTransaction_any_integer_witness :
  st_transactions
    (handleAddTransaction "x7f2k9q1z" sample_now (sample_state "-45"))
  = Transaction.mk "x7f2k9q1z" (num (-45)) Misc Cash (TimeValue sample_now)
      "chai"
    :: st_transactions (sample_state "-45").
Proof.
  apply (handleAddTransaction_any_integer "x7f2k9q1z" sample_now
           (sample_state "-45") (-45)).
  - lia.
  - reflexivity.
Defined.

Lemma Qfloor_scaled_range (r : Qc) :
  (0 <= r)%Qc -> (r < 1)%Qc -> 0 <= Qfloor (r * Qc_of_Z 200)%Qc <= 199.
Proof.
  intros H0 H1.
  pose proof (Qfloor_le (r * Qc_of_Z 200)%Qc) as Hlo.
  pose proof (Qlt_floor (r * Qc_of_Z 200)%Qc) as Hhi.
  set (z := Qfloor (r * Qc_of_Z 200)%Qc) in *.
  assert (A : (0 <= this (r * Qc_of_Z 200)%Qc)%Q
              /\ (this (r * Qc_of_Z 200)%Qc < 200)%Q).
  { qc_to_q. split; lra. }
  destruct A as [A0 A1].
  split.
  - assert (L : (inject_Z (-1) < inject_Z z)%Q).
    { rewrite inject_Z_plus in Hhi. unfold inject_Z at 1. 
      unfold inject_Z in Hhi at 2. lra. }
    rewrite <- Zlt_Qlt in L. lia.
  - assert (L : (inject_Z z < inject_Z 200)%Q).
    { unfold inject_Z at 2. lra. }
    rewrite <- Zlt_Qlt in L. lia.
Qed.

(** X11.  The simulated bank message always leads to a recorded expense:
    the amount it puts into the form is a whole number from 20 to 219,
    and submitting the form then records a transaction of exactly that
    amount, of category Mess/Food, with the note of the simulation and
    the payment method the form had. *)
Theorem simulateSMS_then_submit (random : Qc) (fresh : string) (now : Z)
    (st : AppState) :
  (0 <= random)%Qc -> (random < 1)%Qc ->
  exists n,
    20 <= n <= 219
    /\ st_newAmount (simulateSMS random st) = Z_toString n
    /\ handleAddTransaction fresh now (simulateSMS random st)
       = {| st_transactions :=
              Transaction.mk fresh (num n) Mess_Food (st_newMethod st)
                (TimeValue now) "Simulated from SMS"
              :: st_transactions st;
            st_isAddModalOpen := false;
            st_newAmount := "";
            st_newCategory := Mess_Food;
            st_newMethod := st_newMethod st;
            st_newNote := "" |}.
Proof.
  intros H0 H1.
  pose proof (Qfloor_scaled_range random H0 H1) as Hr.
  exists (Qfloor (random * Qc_of_Z 200)%Qc + 20).
  split; [lia|]. split; [reflexivity|].
  assert (P : parseFloat (st_newAmount (simulateSMS random st))
              = num (Qfloor (random * Qc_of_Z 200)%Qc + 20)).
  { unfold simulateSMS. cbn [st_newAmount].
    apply parseFloat_Z_toString. lia. }
  rewrite handleAddTransaction_accepts by (rewrite P; reflexivity).
  rewrite P. reflexivity.
Qed.

Lemma simulateSMS_then_submit_witness :
  exists n,
    20 <= n <= 219
    /\ st_newAmount (simulateSMS (Q2Qc (7 # 10)) (sample_state "")) = Z_toString n
    /\ handleAddTransaction "x7f2k9q1z" sample_now
         (simulateSMS (Q2Qc (7 # 10)) (sample_state ""))
       = {| st_transactions :=
              Transaction.mk "x7f2k9q1z" (num n) Mess_Food Cash
                (TimeValue sample_now) "Simulated from SMS"
              :: st_transactions (sample_state "");
            st_isAddModalOpen := false;
            st_newAmount := "";
            st_newCategory := Mess_Food;
            st_newMethod := Cash;
            st_newNote := "" |}.
Proof.
  apply (simulateSMS_then_submit (Q2Qc (7 # 10)) "x7f2k9q1z" sample_now
           (sample_state "")).
  - vm_compute. discriminate.
  - vm_compute. reflexivity.
Defined.

(* ================================================================== *)
(** * Further properties of the totals by category *)
(* ================================================================== *)







Lemma existsb_Category_In (c : Category) (l : list Category) :
  existsb (Category_eqb c) l = true <-> In c l.
Proof.
  rewrite existsb_exists. split.
  - intros (x & Hx & E). apply Category_eqb_eq in E. now subst.
  - intro H. exists c. split; [exact H | apply Category_eqb_refl].
Qed.

Lemma counts_set_keys (counts : counts_t) (c : Category) (v : number) :
  map fst (counts_set counts c v)
  = if existsb (Category_eqb c) (map fst counts) then map fst counts
    else map fst counts ++ [c].
Proof.
  induction counts as [|[k w] rest IH]; cbn [counts_set map fst existsb app].
  - reflexivity.
  - destruct (Category_eqb k c) eqn:E.
    + apply Category_eqb_eq in E. subst k.
      now rewrite Category_eqb_refl.
    + assert (E' : Category_eqb c k = false).
      { destruct (Category_eqb c k) eqn:E'; [|reflexivity].
        apply Category_eqb_eq in E'. subst k.
        now rewrite Category_eqb_refl in E. }
      rewrite E'. cbn [orb map fst]. rewrite IH.
      destruct (existsb (Category_eqb c) (map fst rest)); reflexivity.
Qed.

Lemma fold_count_step_keys (l : list Transaction.t) (counts : counts_t) :
  map fst (fold_left count_step l counts)
  = map fst counts
    ++ first_occurrences (map fst counts) (map Transaction.category l).
Proof.
  revert counts. induction l as [|t l IH]; intro counts;
    cbn [fold_left map first_occurrences].
  - now rewrite app_nil_r.
  - rewrite IH. unfold count_step at 1 2. rewrite counts_set_keys.
    destruct (existsb (Category_eqb (Transaction.category t)) (map fst counts)).
    + reflexivity.
    + now rewrite <- app_assoc.
Qed.

(** X13.  The entries of the category data come in the order in which
    their categories first occur among the transactions of the week:
    the list is kept newest first, so the category spent on most
    recently is the first slice. *)
Theorem categoryData_order (tza : Z) (txs : list Transaction.t) (now : Z) :
  map fst (categoryData tza txs now)
  = first_occurrences []
      (map Transaction.category (weeklyTransactions tza txs now)).
Proof.
  unfold categoryData. rewrite category_totals_fold.
  apply fold_count_step_keys.
Qed.

Lemma all_categories_complete (c : Category) : In c all_categories.
Proof. destruct c; simpl; auto 8. Qed.

Lemma category_totals_length (l : list Transaction.t) :
  (List.length (category_totals l) <= 7)%nat.
Proof.
  rewrite <- (length_map fst).
  change 7%nat with (List.length all_categories).
  apply NoDup_incl_length.
  - rewrite category_totals_fold. apply fold_count_step_NoDup. constructor.
  - intros c _. apply all_categories_complete.
Qed.

Lemma COLORS_NoDup : NoDup COLORS.
Proof.
  unfold COLORS.
  repeat (constructor; [simpl; intuition discriminate|]). constructor.
Qed.

(** X14.  The category data never has more than seven entries, one per
    category, so the index into the seven colours never wraps around:
    every entry gets a colour and two different entries never get the
    same one. *)
Theorem categoryData_colours (tza : Z) (txs : list Transaction.t) (now : Z)
    (i j : nat) :
  (i < List.length (categoryData tza txs now))%nat ->
  (j < List.length (categoryData tza txs now))%nat ->
  i <> j ->
  (List.length (categoryData tza txs now) <= List.length COLORS)%nat
  /\ cell_fill i = nth_error COLORS i
  /\ cell_fill i <> None
  /\ cell_fill i <> cell_fill j.
Proof.
  intros Hi Hj Hne.
  pose proof (category_totals_length (weeklyTransactions tza txs now)) as H7.
  fold (categoryData tza txs now) in H7.
  assert (Li : (i < 7)%nat) by lia. assert (Lj : (j < 7)%nat) by lia.
  unfold cell_fill. change (List.length COLORS) with 7%nat.
  rewrite !Nat.mod_small by assumption.
  repeat split.
  - exact H7.
  - apply nth_error_Some. exact Li.
  - intro E. apply Hne.
    apply (proj1 (NoDup_nth_error COLORS) COLORS_NoDup i j Li E).
Qed.

Lemma categoryData_colours_witness :
  (List.length (categoryData IST
                  [sample_tx "a" 120 Mess_Food sample_now;
                   sample_tx "b" 35 Misc sample_now] sample_now)
   <= List.length COLORS)%nat
  /\ cell_fill 0 = nth_error COLORS 0
  /\ cell_fill 0 <> None
  /\ cell_fill 0 <> cell_fill 1.
Proof.
  apply (categoryData_colours IST
           [sample_tx "a" 120 Mess_Food sample_now;
            sample_tx "b" 35 Misc sample_now] sample_now 0 1).
  - vm_compute. lia.
  - vm_compute. lia.
  - discriminate.
Defined.

(* ================================================================== *)
(** * Saving and loading *)
(* ================================================================== *)

(** A transaction dated at an instant is written to a record from which
    [fromJSON] builds it again, whatever identifier the constructor
    draws. *)
Lemma fromJSON_toJSON (t : Transaction.t) :
  has_valid_date t ->
  exists json, Transaction.toJSON t = Some json
               /\ TransactionJSON.amount json = Transaction.amount t
               /\ forall fresh, Transaction.fromJSON fresh json = t.
Proof.
  intro Hd.
  destruct (Date_of_string_toISOString _ Hd) as (iso & Hiso & Hback).
  unfold Transaction.toJSON. rewrite Hiso.
  eexists. split; [reflexivity|]. split; [reflexivity|]. intro fresh.
  unfold Transaction.fromJSON, Transaction.new, Transaction.set_id.
  cbn [TransactionJSON.id TransactionJSON.amount TransactionJSON.category
       TransactionJSON.method TransactionJSON.date TransactionJSON.note
       Transaction.id Transaction.amount Transaction.category
       Transaction.method Transaction.date Transaction.note].
  rewrite Hback. destruct t; reflexivity.
Qed.

Lemma JSON_number_finite (x : number) : is_finite x -> JSON_number x = Some x.
Proof. intros [q ->]. reflexivity. Qed.

Lemma save_load_transactions (fresh : nat -> string) (l : list Transaction.t) :
  Forall has_valid_date l -> Forall has_finite_amount l ->
  exists js, save_transactions l = Some js
             /\ forall i,
                 load_transactions fresh i (map JSON_transaction js) = Some l.
Proof.
  induction l as [|t l IH]; intros Hall Hfin.
  - exists []. split; reflexivity.
  - inversion Hall as [|? ? Ht Hl]; subst.
    inversion Hfin as [|? ? Ft Fl]; subst.
    destruct (fromJSON_toJSON t Ht) as (j & Ej & Ea & Hj).
    destruct (IH Hl Fl) as (js & Ejs & Hload).
    exists (j :: js). cbn [save_transactions]. rewrite Ej, Ejs.
    split; [reflexivity|]. intro i.
    cbn [map load_transactions].
    unfold fromParsed, JSON_transaction at 1.
    cbn [parsed_id parsed_amount parsed_category parsed_method parsed_date
         parsed_note].
    rewrite Ea, (JSON_number_finite _ Ft). cbn.
    rewrite <- Ea.
    replace {| TransactionJSON.id := TransactionJSON.id j;
               TransactionJSON.amount := TransactionJSON.amount j;
               TransactionJSON.category := TransactionJSON.category j;
               TransactionJSON.method := TransactionJSON.method j;
               TransactionJSON.date := TransactionJSON.date j;
               TransactionJSON.note := TransactionJSON.note j |}
      with j by (destruct j; reflexivity).
    rewrite Hj, (Hload (S i)). reflexivity.
Qed.

(** X15.  What the save effect stores, the load effect reads back: for
    transactions dated at instants and with finite amounts, and a budget
    with finite limits, writing the records of the save effect with
    [JSON.stringify], reading them with [JSON.parse] and rebuilding the
    state as the load effect does gives the same transactions, in the
    same order and with their identifiers, and the same budget, whatever
    the state was before. *)
Theorem save_load_roundtrip (fresh : nat -> string)
    (txs : list Transaction.t) (b : Budget.t)
    (state : list Transaction.t * Budget.t) :
  Forall has_valid_date txs ->
  Forall has_finite_amount txs ->
  is_finite (Budget.monthlyLimit b) ->
  is_finite (Budget.weeklyAllowance b) ->
  exists snapshot,
    saved_snapshot txs b = Some snapshot
    /\ load_effect fresh (Some (JSON_roundtrip snapshot)) state = Some (txs, b).
Proof.
  intros Hall Hfin Hm Hw.
  destruct (save_load_transactions fresh txs Hall Hfin) as (js & Ejs & Hload).
  unfold saved_snapshot. rewrite Ejs.
  eexists. split; [reflexivity|].
  unfold load_effect.
  cbn [JSON_roundtrip parsed_transactions parsed_monthlyLimit
       parsed_weeklyAllowance snap_transactions snap_monthlyLimit
       snap_weeklyAllowance] in *.
  rewrite (Hload 0%nat), (JSON_number_finite _ Hm), (JSON_number_finite _ Hw).
  destruct b; reflexivity.
Qed.

Lemma save_load_roundtrip_witness :
  exists snapshot,
    saved_snapshot
      [sample_tx "k3j9x0a1b" 40 Mess_Food sample_now;
       sample_tx "p0o9i8u7y" 15 Misc sample_next_month] Budget.default
    = Some snapshot
    /\ load_effect (fun _ => "zzzzzzzzz"%string)
         (Some (JSON_roundtrip snapshot)) ([], Budget.mk (num 1) (num 2))
       = Some ([sample_tx "k3j9x0a1b" 40 Mess_Food sample_now;
                sample_tx "p0o9i8u7y" 15 Misc sample_next_month],
               Budget.default).
Proof.
  apply (save_load_roundtrip (fun _ => "zzzzzzzzz"%string)
           [sample_tx "k3j9x0a1b" 40 Mess_Food sample_now;
            sample_tx "p0o9i8u7y" 15 Misc sample_next_month]
           Budget.default ([], Budget.mk (num 1) (num 2))).
  - repeat constructor;
      unfold has_valid_date, valid_Date, valid_time, maxTime, sample_tx,
        sample_now, sample_next_month; cbn [Transaction.date]; lia.
  - repeat constructor; eexists; reflexivity.
  - eexists; reflexivity.
  - eexists; reflexivity.
Defined.

(** An amount that is not finite does not survive: it is stored as
    [null]. *)
Example infinite_amount_stored_as_null :
  option_map (fun s => map parsed_amount (parsed_transactions (JSON_roundtrip s)))
    (saved_snapshot
       [Transaction.mk "a" (Infinity false) Misc UPI (TimeValue sample_now) "";
        Transaction.mk "b" (num 5) Misc UPI (TimeValue sample_now) ""]
       Budget.default)
  = Some [None; Some (num 5)].
Proof. vm_compute. reflexivity. Qed.

Lemma toJSON_None (t : Transaction.t) :
  Transaction.toJSON t = None <-> Transaction.date t = InvalidDate.
Proof.
  unfold Transaction.toJSON.
  destruct (Transaction.date t) as [|x]; cbn [toISOString]; split;
    intro H; try reflexivity; discriminate H.
Qed.

(** X16.  The save effect throws, and so stores nothing, exactly when
    some transaction of the list has an invalid date; one such
    transaction is enough, wherever it is in the list. *)
Theorem saved_snapshot_throws_iff (txs : list Transaction.t) (b : Budget.t) :
  saved_snapshot txs b = None
  <-> Exists (fun t => Transaction.date t = InvalidDate) txs.
Proof.
  unfold saved_snapshot.
  assert (S : save_transactions txs = None
              <-> Exists (fun t => Transaction.date t = InvalidDate) txs).
  { induction txs as [|t l IH]; cbn [save_transactions].
    - split; [discriminate | intro H; inversion H].
    - destruct (Transaction.toJSON t) as [j|] eqn:Ej.
      + assert (Hd : Transaction.date t <> InvalidDate).
        { intro H. apply toJSON_None in H. congruence. }
        destruct (save_transactions l) as [js|].
        * split; [discriminate|]. intro H. inversion H as [? ? H1 | ? ? H1]; subst.
          -- contradiction.
          -- apply IH in H1. discriminate H1.
        * split; [|reflexivity]. intros _. right. now apply IH.
      + split; [|reflexivity]. intros _. left. now apply toJSON_None. }
  destruct (save_transactions txs).
  - split; [discriminate|]. intro H. apply S in H. discriminate H.
  - split; [intros _; now apply S | reflexivity].
Qed.

(* ================================================================== *)
(** * Further properties of the monthly figures *)
(* ================================================================== *)

(** X17.  As long as no transaction is dated after the clock reading,
    which holds for lists built by the handler, the monthly figure is
    the sum over the calendar month, from the local midnight of the 1st
    to the last millisecond of the last day. *)
Theorem monthlySpent_without_future (tza : Z) (txs : list Transaction.t)
    (now : Z) :
  month_margin now ->
  none_in_future txs now ->
  monthlySpent tza txs now = month_window_total tza txs now.
Proof.
  intros Hm Hnf. apply monthlySpent_month_window.
  intros t Ht. specialize (Hnf t Ht).
  rewrite (endOfMonth_last tza now Hm).
  destruct (Transaction.date t) as [|d]; [discriminate Hnf|].
  cbn [Date_le] in *. apply Z.leb_le in Hnf. apply Z.leb_le.
  pose proof (DateFromTime_range (now + tza)) as Hd.
  pose proof (Day_bounds (now + tza)) as Hb.
  unfold first_midnight, msPerDay in *.
  set (N := DaysInMonth (YearFromTime (now + tza)) (MonthFromTime (now + tza))) in *.
  set (D := DateFromTime (now + tza)) in *.
  set (K := Day (now + tza)) in *.
  nia.
Qed.

Lemma monthlySpent_without_future_witness :
  monthlySpent IST
    [sample_tx "a" 120 Mess_Food sample_now;
     sample_tx "b" 900 PG_Rent (sample_now - 40 * 86400000)] sample_now
  = month_window_total IST
      [sample_tx "a" 120 Mess_Food sample_now;
       sample_tx "b" 900 PG_Rent (sample_now - 40 * 86400000)] sample_now.
Proof.
  apply (monthlySpent_without_future IST
           [sample_tx "a" 120 Mess_Food sample_now;
            sample_tx "b" 900 PG_Rent (sample_now - 40 * 86400000)] sample_now).
  - exact sample_now_margin.
  - intros t [E | [E | []]]; subst t; vm_compute; reflexivity.
Defined.

Lemma Math_min_100_le (x : number) : num_lt (num 100) (Math_min (num 100) x) = false.
Proof.
  destruct x as [|s|q]; unfold Math_min, num; cbn [num_lt].
  - reflexivity.
  - destruct s; cbn [num_lt]; [reflexivity | apply Qc_ltb_irrefl].
  - destruct (Qc_ltb q (Qc_of_Z 100)) eqn:E; cbn [num_lt].
    + apply Qc_ltb_ge. apply Qc_ltb_lt in E. now apply Qclt_le_weak.
    + apply Qc_ltb_irrefl.
Qed.

(** X18.  The bar under the monthly spend never overflows: its width
    never compares above 100; with amounts that are finite and not
    negative and a positive finite monthly limit, it is a number from 0
    to 100. *)
Theorem monthlyProgressWidth_bounds (tza : Z) (txs : list Transaction.t)
    (b : Budget.t) (now : Z) (limit : Qc) :
  Forall has_nonneg_amount txs ->
  Budget.monthlyLimit b = Finite limit ->
  (0 < limit)%Qc ->
  num_lt (num 100) (monthlyProgressWidth tza txs b now) = false
  /\ exists w, monthlyProgressWidth tza txs b now = Finite w
               /\ (0 <= w)%Qc /\ (w <= Qc_of_Z 100)%Qc.
Proof.
  intros Hall Hl Hpos. split; [apply Math_min_100_le|].
  unfold monthlyProgressWidth, monthlySpent. rewrite sum_amounts_total, Hl.
  destruct (total_amount_filter_le
              (fun t => Date_ge (Transaction.date t) (startOfMonth tza (today now)))
              (fun t => Date_ge (Transaction.date t) (startOfMonth tza (today now)))
              txs Hall (fun _ _ H => H))
    as (p & _ & Ep & _ & Hp & _).
  rewrite Ep. cbn [num_div].
  assert (Hne : limit <> 0%Qc).
  { intro E. rewrite E in Hpos. revert Hpos. apply Qcle_not_lt, Qcle_refl. }
  assert (E0 : Qc_eqb limit 0 = false) by now apply Qc_eqb_neq.
  rewrite E0. unfold num. cbn [num_mul Math_min num_lt].
  assert (Hw : (0 <= p / limit * Qc_of_Z 100)%Qc).
  { rewrite <- (Qcmult_0_l (Qc_of_Z 100)).
    apply Qcmult_le_compat_r; [|vm_compute; discriminate].
    apply Qcmult_lt_0_le_reg_r with (z := limit); [exact Hpos|].
    rewrite Qcmult_0_l.
    replace (p / limit * limit)%Qc with p by (field; exact Hne). exact Hp. }
  destruct (Qc_ltb (p / limit * Qc_of_Z 100) (Qc_of_Z 100)) eqn:E.
  - eexists. split; [reflexivity|]. split; [exact Hw|].
    apply Qc_ltb_lt in E. now apply Qclt_le_weak.
  - eexists. split; [reflexivity|]. split; [vm_compute; discriminate | apply Qcle_refl].
Qed.

Lemma monthlyProgressWidth_bounds_witness :
  num_lt (num 100)
    (monthlyProgressWidth IST [sample_tx "a" 120 Mess_Food sample_now]
       Budget.default sample_now) = false
  /\ exists w,
       monthlyProgressWidth IST [sample_tx "a" 120 Mess_Food sample_now]
         Budget.default sample_now = Finite w
       /\ (0 <= w)%Qc /\ (w <= Qc_of_Z 100)%Qc.
Proof.
  apply (monthlyProgressWidth_bounds IST
           [sample_tx "a" 120 Mess_Food sample_now] Budget.default sample_now
           (Qc_of_Z 25000)).
  - repeat constructor. eexists. split; [reflexivity | vm_compute; discriminate].
  - reflexivity.
  - vm_compute. reflexivity.
Defined.

(* ================================================================== *)
(** * Further properties of the alert and of the week *)
(* ================================================================== *)

(** X19.  Recording an expense of a category other than Misc never
    changes the Chai-Index alert: the Misc spend of the week is the same
    before and after the submission, accepted or not. *)
Theorem chaiIndex_unchanged_by_other_categories (tza : Z) (fresh : string)
    (now : Z) (st : AppState) (b : Budget.t) :
  st_newCategory st <> Misc ->
  miscSpent tza (st_transactions (handleAddTransaction fresh now st)) now
  = miscSpent tza (st_transactions st) now
  /\ chaiIndexExceeded tza
       (st_transactions (handleAddTransaction fresh now st)) b now
     = chaiIndexExceeded tza (st_transactions st) b now.
Proof.
  intro Hc.
  assert (E : miscSpent tza (st_transactions (handleAddTransaction fresh now st)) now
              = miscSpent tza (st_transactions st) now).
  { destruct (isNaN (parseFloat (st_newAmount st))) eqn:P.
    - now rewrite (handleAddTransaction_rejects fresh now st P).
    - rewrite (handleAddTransaction_accepts fresh now st P).
      cbn [st_transactions]. unfold miscSpent, weeklyTransactions.
      cbn [filter].
      destruct (in_window (weekStart tza now) (weekEnd tza now) _);
        [|reflexivity].
      cbn [filter Transaction.category].
      destruct (Category_eqb (st_newCategory st) Misc) eqn:C; [|reflexivity].
      apply Category_eqb_eq in C. contradiction. }
  split; [exact E|]. unfold chaiIndexExceeded. now rewrite E.
Qed.

Lemma chaiIndex_unchanged_by_other_categories_witness :
  miscSpent IST
    (st_transactions
       (handleAddTransaction "x7f2k9q1z" sample_now
          (mkAppState [sample_tx "a" 700 Misc sample_now] true "250" Social
             UPI "")))
    sample_now
  = miscSpent IST [sample_tx "a" 700 Misc sample_now] sample_now
  /\ chaiIndexExceeded IST
       (st_transactions
          (handleAddTransaction "x7f2k9q1z" sample_now
             (mkAppState [sample_tx "a" 700 Misc sample_now] true "250" Social
                UPI "")))
       Budget.default sample_now
     = chaiIndexExceeded IST [sample_tx "a" 700 Misc sample_now]
         Budget.default sample_now.
Proof.
  apply (chaiIndex_unchanged_by_other_categories IST "x7f2k9q1z" sample_now
           (mkAppState [sample_tx "a" 700 Misc sample_now] true "250" Social
              UPI "") Budget.default).
  discriminate.
Defined.

Lemma monday_midnight_stable (tza now later : Z) :
  monday_midnight tza now <= later
  <= monday_midnight tza now + 7 * msPerDay - 1 ->
  monday_midnight tza later = monday_midnight tza now.
Proof.
  unfold monday_midnight, days_since_monday, WeekDay. intro H.
  pose proof (Day_bounds (now + tza)) as Hb.
  pose proof (Day_bounds (later + tza)) as Hb'.
  set (K := Day (now + tza)) in *. set (K' := Day (later + tza)) in *.
  clearbody K K'. unfold msPerDay in *.
  assert (E : K' - ((K' + 4) mod 7 + 6) mod 7 = K - ((K + 4) mod 7 + 6) mod 7).
  { Z.to_euclidean_division_equations. lia. }
  rewrite E. reflexivity.
Qed.

(** X20.  The week window does not move during the week: at any later
    instant up to the end of the window, the weekly figures are taken
    over the same window. *)
Theorem week_window_stable (tza now later : Z) (txs : list Transaction.t) :
  week_margin now -> week_margin later ->
  Date_le (TimeValue now) (TimeValue later) = true ->
  Date_le (TimeValue later) (weekEnd tza now) = true ->
  weekStart tza later = weekStart tza now
  /\ weekEnd tza later = weekEnd tza now
  /\ weeklyTransactions tza txs later = weeklyTransactions tza txs now.
Proof.
  intros Hm Hm' Hle Hend.
  destruct (week_window tza now Hm) as (Es & Ee & Hin & _).
  destruct (week_window tza later Hm') as (Es' & Ee' & _).
  rewrite Ee in Hend. cbn [Date_le] in *.
  apply Z.leb_le in Hle, Hend.
  assert (E : monday_midnight tza later = monday_midnight tza now)
    by (apply monday_midnight_stable; lia).
  assert (S : weekStart tza later = weekStart tza now)
    by now rewrite Es, Es', E.
  assert (T : weekEnd tza later = weekEnd tza now)
    by now rewrite Ee, Ee', E.
  repeat split; try assumption.
  unfold weeklyTransactions. now rewrite S, T.
Qed.

Lemma week_window_stable_witness :
  weekStart IST (sample_now + 3 * 86400000) = weekStart IST sample_now
  /\ weekEnd IST (sample_now + 3 * 86400000) = weekEnd IST sample_now
  /\ weeklyTransactions IST [sample_tx "a" 700 Misc sample_now]
       (sample_now + 3 * 86400000)
     = weeklyTransactions IST [sample_tx "a" 700 Misc sample_now] sample_now.
Proof.
  apply (week_window_stable IST sample_now (sample_now + 3 * 86400000)
           [sample_tx "a" 700 Misc sample_now]).
  - exact (month_margin_week _ sample_now_margin).
  - unfold week_margin, maxTime, msPerDay, sample_now. lia.
  - vm_compute. reflexivity.
  - vm_compute. reflexivity.
Defined.
